(** * Hand-gesture scene controller: gesture FSM and single-object scene

    A shallow embedding of [gesture_controller.py], [object_manager.py], the
    entity classes' [update] methods and [main.py]'s per-frame glue, with the
    properties of the stability lock, the cooldown guard and the scene
    ownership rule.

    Conventions of the embedding.
    - Python floats (landmark coordinates, [dt], wall-clock seconds) come in
      two forms.  Modules [GestureController], [Entity], [ObjectManager] and
      [main] take them as exact rationals [Q]: they carry the properties of
      the state machine and of the scene, which do not depend on rounding.
      Module [GestureController64] is the gesture controller again over
      binary64, with the rounded operations of the code: it carries the
      properties that depend on where a comparison flips (the cooldown
      boundary, the extension and closed thresholds).
    - [time.time()] is an input: every call of [update] receives the reading
      [clock] it would obtain from the wall clock.
    - a Python [IndexError] is [None] in the option monad.
    - entity objects live in a store indexed by identity; the scene manager
      holds a reference into it. *)

From Stdlib Require Import QArith Lqa Lia ZArith.
From Stdlib Require Import PrimFloat SpecFloat FloatOps.
From stdpp Require Import base option list gmap.

(** ** Comparisons of floats, as booleans *)

Definition Qltb (x y : Q) : bool := (Qnum x * QDen y <? Qnum y * QDen x)%Z.
Definition Qgtb (x y : Q) : bool := Qltb y x.
Definition Qgeb (x y : Q) : bool := Qle_bool y x.

(** Truth value of a list: [not landmarks] holds of the empty list. *)
Definition falsy {A : Type} (l : list A) : bool :=
  match l with [] => true | _ :: _ => false end.

(** ** config.py *)

Module config.

Inductive Gesture : Set :=
| GESTURE_IDLE
| GESTURE_THREE_FINGERS
| GESTURE_OPEN_PALM
| GESTURE_FIST
| GESTURE_PEACE.

#[export] Instance Gesture_eq_dec : EqDecision Gesture.
Proof. solve_decision. Defined.

End config.
Import config.

(** ** gesture_controller.py *)

(** One landmark is the tuple [(x, y, z)]; the pose source hands over a list
    of them ([[]] when no hand is seen). *)
Definition Landmark : Type := Q * Q * Q.
Definition Landmarks : Type := list Landmark.

Module GestureController.

Definition EXTENSION_TOLERANCE : Q := 0.03.
Definition GESTURE_STABILITY_FRAMES : nat := 6.
Definition SWITCH_COOLDOWN : Q := 0.35.

Record t : Type := mk {
  _gesture_hold   : Gesture;          (* what raw gesture we're seeing *)
  _hold_frames    : nat;              (* consecutive frame counter *)
  _active_gesture : option Gesture;   (* what's on screen right now *)
  _last_switch    : Q;                (* timestamp of last switch *)
  _frame_count    : nat
}.

Definition __init__ : t :=
  {| _gesture_hold := GESTURE_IDLE;
     _hold_frames := 0;
     _active_gesture := None;
     _last_switch := 0;
     _frame_count := 0 |}.

Definition set_active_gesture (self : t) (gesture_name : option Gesture) : t :=
  {| _gesture_hold := _gesture_hold self;
     _hold_frames := _hold_frames self;
     _active_gesture := gesture_name;
     _last_switch := _last_switch self;
     _frame_count := _frame_count self |}.

(** [landmarks[idx][1]] and [landmarks[idx][0]] *)
Definition _y (landmarks : Landmarks) (idx : nat) : option Q :=
  '(_, y, _) ← landmarks !! idx; Some y.

Definition _x (landmarks : Landmarks) (idx : nat) : option Q :=
  '(x, _, _) ← landmarks !! idx; Some x.

Definition _thumb_extended (lm : Landmarks) : option bool :=
  tip_x ← _x lm 4;
  ip_x ← _x lm 3;
  mcp_x ← _x lm 2;
  wrist_x ← _x lm 0;
  middle_mcp_x ← _x lm 9;
  let hand_side := (wrist_x - middle_mcp_x)%Q in
  let extended :=
    if Qgeb hand_side 0
    then Qgtb (ip_x - tip_x) (- EXTENSION_TOLERANCE)
    else Qgtb (tip_x - ip_x) (- EXTENSION_TOLERANCE) in
  tip_y ← _y lm 4;
  mcp_y ← _y lm 2;
  let not_curled_under := Qltb tip_y (mcp_y + 0.12) in
  Some (extended && not_curled_under).

Definition _finger_extended (lm : Landmarks) (tip pip mcp : nat) : option bool :=
  tip_y ← _y lm tip;
  pip_y ← _y lm pip;
  mcp_y ← _y lm mcp;
  Some (Qltb tip_y (pip_y - EXTENSION_TOLERANCE) && Qltb tip_y mcp_y).

Definition _finger_closed (lm : Landmarks) (tip pip mcp : nat) : option bool :=
  tip_y ← _y lm tip;
  pip_y ← _y lm pip;
  Some (Qgtb tip_y (pip_y - EXTENSION_TOLERANCE * 0.5)).

Definition _detect (lm : Landmarks) : option Gesture :=
  thumb ← _thumb_extended lm;
  index ← _finger_extended lm 8 6 5;
  middle ← _finger_extended lm 12 10 9;
  ring ← _finger_extended lm 16 14 13;
  pinky ← _finger_extended lm 20 18 17;
  (* closed variants for strict checks *)
  index_closed ← _finger_closed lm 8 6 5;
  middle_closed ← _finger_closed lm 12 10 9;
  ring_closed ← _finger_closed lm 16 14 13;
  pinky_closed ← _finger_closed lm 20 18 17;
  let is_open_palm := thumb && index && middle && ring && pinky in
  if is_open_palm then Some GESTURE_OPEN_PALM else
  let is_three := index && middle && ring in
  if is_three then Some GESTURE_THREE_FINGERS else
  let is_peace := index && middle && ring_closed && pinky_closed in
  if is_peace then Some GESTURE_PEACE else
  let is_fist := index_closed && middle_closed && ring_closed && pinky_closed in
  if is_fist then Some GESTURE_FIST else
  Some GESTURE_IDLE.

(** [update] returns the new controller and the emitted label; [clock] is
    what [time.time()] reads during the call.  [width], [height] and [dt]
    are accepted and not used, as in the source. *)
Definition update (self : t) (landmarks : Landmarks) (width height : Z)
    (dt clock : Q) : option (t * Gesture) :=
  let frame_count := S (_frame_count self) in
  (* no hand -> IDLE, but do not reset the hold counter *)
  if falsy landmarks || (length landmarks <? 21)%nat then
    Some ({| _gesture_hold := _gesture_hold self;
             _hold_frames := _hold_frames self;
             _active_gesture := _active_gesture self;
             _last_switch := _last_switch self;
             _frame_count := frame_count |}, GESTURE_IDLE)
  else
  (* detect raw gesture this frame *)
  raw_gesture ← _detect landmarks;
  (* frame-stability counter *)
  let '(gesture_hold, hold_frames) :=
    if bool_decide (raw_gesture = _gesture_hold self)
    then (_gesture_hold self, S (_hold_frames self))
    else (raw_gesture, 1%nat) in
  let unswitched :=
    {| _gesture_hold := gesture_hold;
       _hold_frames := hold_frames;
       _active_gesture := _active_gesture self;
       _last_switch := _last_switch self;
       _frame_count := frame_count |} in
  (* IDLE is never actionable *)
  if bool_decide (raw_gesture = GESTURE_IDLE) then Some (unswitched, GESTURE_IDLE) else
  (* only emit after GESTURE_STABILITY_FRAMES consecutive frames *)
  if (hold_frames <? GESTURE_STABILITY_FRAMES)%nat then Some (unswitched, GESTURE_IDLE) else
  (* same gesture already on screen -> ignore *)
  if bool_decide (Some raw_gesture = _active_gesture self) then Some (unswitched, GESTURE_IDLE) else
  (* cooldown guard *)
  let now := clock in
  if Qltb (now - _last_switch self) SWITCH_COOLDOWN then Some (unswitched, GESTURE_IDLE) else
  (* confirmed: new, stable, different gesture *)
  Some ({| _gesture_hold := gesture_hold;
           _hold_frames := hold_frames;
           _active_gesture := Some raw_gesture;
           _last_switch := now;
           _frame_count := frame_count |}, raw_gesture).

End GestureController.

(** ** The visual entities (flower.py, milky_way.py, nebula.py, energy_orb.py)

    Only the animation state touched by [update] is kept; the meshes built
    by the constructors are constant afterwards and play no part here. *)

Module Entity.

Inductive Class : Set := MilkyWay | Nebula | EnergyOrb | Flower.

#[export] Instance Class_eq_dec : EqDecision Class.
Proof. solve_decision. Defined.

Record t : Type := mk { class : Class; age : Q; rotation : Q }.

Definition __init__ (c : Class) : t :=
  {| class := c; age := 0; rotation := 0 |}.

(** [update] returns the advanced entity and its alive-flag. *)
Definition update (self : t) (dt : Q) : t * bool :=
  match class self with
  | Flower =>
      let age' := (age self + dt)%Q in
      ({| class := Flower; age := age'; rotation := rotation self + dt * 6.0 |},
       Qltb age' 22.0)
  | MilkyWay =>
      ({| class := MilkyWay; age := age self + dt; rotation := rotation self + 2.2 * dt |},
       true)
  | Nebula =>
      ({| class := Nebula; age := age self + dt; rotation := rotation self + 5.0 * dt |},
       true)
  | EnergyOrb =>
      let age' := (age self + dt)%Q in
      ({| class := EnergyOrb; age := age'; rotation := rotation self + 10.0 * dt |},
       Qltb age' 22.0)
  end.

End Entity.

(** ** object_manager.py *)

(** Object identities, and the store of the entity objects that are alive.
    [drawn] is the presentation sink: what [draw] has submitted so far. *)
Definition loc : Set := nat.

Record Store : Type := mkStore {
  objects : gmap nat Entity.t;
  drawn   : list Entity.t
}.

Definition empty_store : Store := {| objects := ∅; drawn := [] |}.

Module ObjectManager.

Record t : Type := mk {
  current_object  : option loc;
  current_gesture : option Gesture   (* which gesture owns the current object *)
}.

Definition __init__ : t :=
  {| current_object := None; current_gesture := None |}.

(** Rebinding the slot drops the only reference to the previous object,
    which is reclaimed at once. *)
Definition release (o : option loc) (objs : gmap nat Entity.t) : gmap nat Entity.t :=
  match o with
  | Some l => delete l objs
  | None => objs
  end.

Definition spawn (self : t) (σ : Store) (gesture_name : option Gesture)
    (object_class : Entity.Class) : t * Store * bool :=
  if bool_decide (gesture_name = current_gesture self)
     && bool_decide (current_object self ≠ None)
  then (self, σ, false)   (* same gesture re-fired: keep existing object *)
  else
    (* new gesture: construct, then replace *)
    let l := fresh (dom (objects σ)) in
    let objs := <[l := Entity.__init__ object_class]> (objects σ) in
    ({| current_object := Some l; current_gesture := gesture_name |},
     {| objects := release (current_object self) objs; drawn := drawn σ |},
     true).

Definition update (self : t) (σ : Store) (dt : Q) : t * Store :=
  match current_object self with
  | Some l =>
      (* the returned alive-flag is ignored *)
      (self, {| objects := alter (λ e, fst (Entity.update e dt)) l (objects σ);
                drawn := drawn σ |})
  | None => (self, σ)
  end.

Definition draw (self : t) (σ : Store) : t * Store :=
  match current_object self with
  | Some l =>
      (self, {| objects := objects σ;
                drawn := drawn σ ++ option_list (objects σ !! l) |})
  | None => (self, σ)
  end.

Definition clear (self : t) (σ : Store) : t * Store :=
  ({| current_object := None; current_gesture := None |},
   {| objects := release (current_object self) (objects σ); drawn := drawn σ |}).

End ObjectManager.

(** ** main.py *)

Module main.

Record CinematicUniverse3D : Type := mk {
  object_manager     : ObjectManager.t;
  gesture_controller : GestureController.t;
  last_time          : Q;
  store              : Store
}.

(** [start] is the reading of [time.time()] taken by the constructor. *)
Definition __init__ (start : Q) : CinematicUniverse3D :=
  {| object_manager := ObjectManager.__init__;
     gesture_controller := GestureController.__init__;
     last_time := start;
     store := empty_store |}.

(** The dictionary [self.gesture_map]. *)
Definition gesture_map (g : Gesture) : option Entity.Class :=
  match g with
  | GESTURE_THREE_FINGERS => Some Entity.MilkyWay
  | GESTURE_OPEN_PALM => Some Entity.Nebula
  | GESTURE_FIST => Some Entity.EnergyOrb
  | GESTURE_PEACE => Some Entity.Flower
  | GESTURE_IDLE => None
  end.

Definition handle_gestures (self : CinematicUniverse3D) (width height : Z)
    (dt : Q) (landmarks : Landmarks) (clock : Q) : option CinematicUniverse3D :=
  '(gc, gesture) ← GestureController.update (gesture_controller self)
                      landmarks width height dt clock;
  let idle := {| object_manager := object_manager self;
                 gesture_controller := gc;
                 last_time := last_time self;
                 store := store self |} in
  (* IDLE or unrecognised: do nothing, keep the current object *)
  if bool_decide (gesture = GESTURE_IDLE) then Some idle else
  match gesture_map gesture with
  | None => Some idle
  | Some obj_class =>
      let '(om, σ, _) :=
        ObjectManager.spawn (object_manager self) (store self) (Some gesture) obj_class in
      Some {| object_manager := om;
              gesture_controller := gc;
              last_time := last_time self;
              store := σ |}
  end.

(** What one pass of the [while self.running] loop reads from outside: the
    loop's own clock reading [now], the landmarks of the camera frame
    ([None] when the camera gave no frame), the renderer's size, and the
    clock reading taken inside the gesture controller. *)
Record Frame : Type := mkFrame {
  frame_now       : Q;
  frame_landmarks : option Landmarks;
  frame_width     : Z;
  frame_height    : Z;
  frame_clock     : Q
}.

Definition step (self : CinematicUniverse3D) (f : Frame) : option CinematicUniverse3D :=
  let now := frame_now f in
  let dt := (now - last_time self)%Q in
  let self0 := {| object_manager := object_manager self;
                  gesture_controller := gesture_controller self;
                  last_time := now;
                  store := store self |} in
  (* input processing *)
  self1 ← match frame_landmarks f with
          | Some landmarks =>
              handle_gestures self0 (frame_width f) (frame_height f) dt landmarks (frame_clock f)
          | None => Some self0
          end;
  (* update, then render *)
  let '(om2, σ2) := ObjectManager.update (object_manager self1) (store self1) dt in
  let '(om3, σ3) := ObjectManager.draw om2 σ2 in
  Some {| object_manager := om3;
          gesture_controller := gesture_controller self1;
          last_time := last_time self1;
          store := σ3 |}.

Fixpoint run (self : CinematicUniverse3D) (fs : list Frame) : option CinematicUniverse3D :=
  match fs with
  | [] => Some self
  | f :: fs' => self' ← step self f; run self' fs'
  end.

End main.

(** * Vocabulary of the properties *)

Import GestureController.

(** ** Driving the controller over a sequence of calls *)

Record Call : Type := mkCall {
  call_landmarks : Landmarks;
  call_width  : Z;
  call_height : Z;
  call_dt     : Q;
  call_clock  : Q
}.

Definition update_call (self : t) (c : Call) : option (t * Gesture) :=
  update self (call_landmarks c) (call_width c) (call_height c) (call_dt c) (call_clock c).

(** The emitted labels, in call order, and the final controller. *)
Fixpoint run_calls (self : t) (cs : list Call) : option (t * list Gesture) :=
  match cs with
  | [] => Some (self, [])
  | c :: cs' =>
      '(self1, g) ← update_call self c;
      '(self2, gs) ← run_calls self1 cs';
      Some (self2, g :: gs)
  end.

(** A call sees a hand and its raw classification is [L]. *)
Definition classifies (L : Gesture) (c : Call) : Prop :=
  (21 <= length (call_landmarks c))%nat ∧ _detect (call_landmarks c) = Some L.

(** The number of consecutive frames of [L] the controller has counted. *)
Definition streak (self : t) (L : Gesture) : nat :=
  if bool_decide (L = _gesture_hold self) then _hold_frames self else 0%nat.

(** The four guards of [update] that a raw label must pass to be emitted. *)
Definition confirmed (self : t) (raw : Gesture) (clock : Q) : bool :=
  let hold := if bool_decide (raw = _gesture_hold self)
              then S (_hold_frames self) else 1%nat in
  negb (bool_decide (raw = GESTURE_IDLE))
  && negb (hold <? GESTURE_STABILITY_FRAMES)%nat
  && negb (bool_decide (Some raw = _active_gesture self))
  && negb (Qltb (clock - _last_switch self) SWITCH_COOLDOWN).

(** The (tip, pip, mcp) landmark indices of the four non-thumb fingers, as
    [_detect] passes them. *)
Definition non_thumb_fingers : list (nat * nat * nat) :=
  [(8, 6, 5); (12, 10, 9); (16, 14, 13); (20, 18, 17)]%nat.

(** ** Driving the scene manager *)

(** The calls the scene manager can receive; [spawn] is given a gesture
    label, as [handle_gestures] gives it. *)
Inductive SceneOp : Type :=
| OpSpawn (gesture_name : Gesture) (object_class : Entity.Class)
| OpUpdate (dt : Q)
| OpDraw
| OpClear.

Definition scene_step (s : ObjectManager.t * Store) (op : SceneOp) : ObjectManager.t * Store :=
  match op with
  | OpSpawn g c => fst (ObjectManager.spawn (fst s) (snd s) (Some g) c)
  | OpUpdate dt => ObjectManager.update (fst s) (snd s) dt
  | OpDraw => ObjectManager.draw (fst s) (snd s)
  | OpClear => ObjectManager.clear (fst s) (snd s)
  end.

Definition scene_run (ops : list SceneOp) : ObjectManager.t * Store :=
  foldl scene_step (ObjectManager.__init__, empty_store) ops.

(** The objects alive are exactly the one the slot refers to, if any; and
    the owning label is absent exactly when the slot is empty. *)
Definition scene_inv (s : ObjectManager.t * Store) : Prop :=
  dom (objects (snd s)) =
    match ObjectManager.current_object (fst s) with
    | Some l => {[ l ]}
    | None => (∅ : gset nat)
    end
  ∧ (ObjectManager.current_gesture (fst s) = None ↔
     ObjectManager.current_object (fst s) = None).

(** The controller and the scene manager name the same gesture. *)
Definition agree (app : main.CinematicUniverse3D) : Prop :=
  _active_gesture (main.gesture_controller app) =
  ObjectManager.current_gesture (main.object_manager app).

(** ** Sample hands and states

    A hand drawn upright in image coordinates (smaller [y] is higher), one
    flag per finger: up or folded. *)

Definition pt (x y : Q) : Landmark := (x, y, 0%Q).

Definition finger (x : Q) (up : bool) : list Landmark :=
  if up
  then [pt x 0.6; pt x 0.5; pt x 0.4; pt x 0.3]
  else [pt x 0.6; pt x 0.5; pt x 0.55; pt x 0.6].

Definition thumb_finger (out : bool) : list Landmark :=
  if out
  then [pt 0.45 0.75; pt 0.4 0.7; pt 0.35 0.65; pt 0.3 0.6]
  else [pt 0.45 0.75; pt 0.4 0.7; pt 0.35 0.65; pt 0.45 0.66].

Definition hand (thumb index middle ring pinky : bool) : Landmarks :=
  [pt 0.5 0.9] ++ thumb_finger thumb ++ finger 0.4 index ++ finger 0.5 middle
    ++ finger 0.6 ring ++ finger 0.7 pinky.

Definition open_hand : Landmarks := hand true true true true true.
Definition fist_hand : Landmarks := hand false false false false false.

(** A fist with one landmark too many: 22 points. *)
Definition long_fist_hand : Landmarks := fist_hand ++ [pt 0.5 0.5].

(** A hand whose four fingers are half curled: each tip sits 0.02 above its
    pip, inside the tolerance band. *)
Definition half_curled_finger (x : Q) : list Landmark :=
  [pt x 0.6; pt x 0.5; pt x 0.49; pt x 0.48].

Definition half_curled_hand : Landmarks :=
  [pt 0.5 0.9] ++ thumb_finger false ++ half_curled_finger 0.4 ++ half_curled_finger 0.5
    ++ half_curled_finger 0.6 ++ half_curled_finger 0.7.

Definition call_at (lm : Landmarks) (clock : Q) : Call :=
  {| call_landmarks := lm; call_width := 1920; call_height := 1080;
     call_dt := 0.016; call_clock := clock |}.

(** Five fists counted, nothing active yet. *)
Definition five_fists : t :=
  {| _gesture_hold := GESTURE_FIST;
     _hold_frames := 5;
     _active_gesture := None;
     _last_switch := 0;
     _frame_count := 5 |}.

(** After the switch to FIST at 1700000000 and five open hands. *)
Definition fist_then_five_palms : t :=
  {| _gesture_hold := GESTURE_OPEN_PALM;
     _hold_frames := 5;
     _active_gesture := Some GESTURE_FIST;
     _last_switch := 1700000000;
     _frame_count := 11 |}.

(** A flower past its 22 seconds: its [update] reports it dead. *)
Definition old_flower : Entity.t :=
  {| Entity.class := Entity.Flower; Entity.age := 30; Entity.rotation := 180 |}.

(** A scene owned by PEACE, showing that flower. *)
Definition flower_manager : ObjectManager.t :=
  {| ObjectManager.current_object := Some 0%nat;
     ObjectManager.current_gesture := Some GESTURE_PEACE |}.

Definition flower_store : Store :=
  {| objects := {[ 0%nat := old_flower ]}; drawn := [] |}.

(** ** Vocabulary of the further properties *)

(** The landmarks seen in a mirror: [x] reflected about the vertical line
    [x = a]. *)
Definition mirror_x (a : Q) (lm : Landmarks) : Landmarks :=
  (λ '(x, y, z), ((a - x)%Q, y, z)) <$> lm.

(** The same landmarks with other depths. *)
Definition with_depth (f : Q → Q) (lm : Landmarks) : Landmarks :=
  (λ '(x, y, z), (x, y, f z)) <$> lm.

(** Thumb CMC and the four DIP joints. *)
Definition unread_landmarks : list nat := [1; 7; 11; 15; 19]%nat.

(** An open hand whose wrist is to the right of the middle MCP. *)
Definition tilted_open_hand : Landmarks := <[0%nat := pt 0.55 0.9]> open_hand.

(** The call carries a hand: it passes the length guard of [update]. *)
Definition sees_hand (c : Call) : Prop := (21 <= length (call_landmarks c))%nat.

#[export] Instance sees_hand_dec (c : Call) : Decision (sees_hand c).
Proof. unfold sees_hand. apply _. Defined.

(** The confirmed switches of a run, each with the clock reading of its
    call, and the final controller. *)
Fixpoint switches (self : t) (cs : list Call) : option (t * list (Q * Gesture)) :=
  match cs with
  | [] => Some (self, [])
  | c :: cs' =>
      '(self1, g) ← update_call self c;
      '(self2, sw) ← switches self1 cs';
      Some (self2, if bool_decide (g = GESTURE_IDLE) then sw else (call_clock c, g) :: sw)
  end.

(** Two controllers that differ at most in their frame counter. *)
Definition same_fsm (s1 s2 : t) : Prop :=
  _gesture_hold s1 = _gesture_hold s2 ∧
  _hold_frames s1 = _hold_frames s2 ∧
  _active_gesture s1 = _active_gesture s2 ∧
  _last_switch s1 = _last_switch s2.

(** No label of the list equals the one before it; the first differs from
    [a]. *)
Fixpoint alternating (a : option Gesture) (ls : list Gesture) : Prop :=
  match ls with
  | [] => True
  | l :: ls' => Some l ≠ a ∧ alternating (Some l) ls'
  end.

(** The hold counter stands for that many hand frames: the last
    [_hold_frames] calls of the history that carried a hand were all
    classified as the held label. *)
Definition counted (self : t) (hist : list Call) : Prop :=
  ∃ pre recent : list Call,
    filter sees_hand hist = pre ++ recent ∧
    length recent = _hold_frames self ∧
    Forall (classifies (_gesture_hold self)) recent.

(** What is on screen belongs to the owning gesture: the slot and the owner
    are both empty, or the slot refers to a live entity of the class that
    [gesture_map] gives for the owner. *)
Definition shows (app : main.CinematicUniverse3D) : Prop :=
  match ObjectManager.current_gesture (main.object_manager app),
        ObjectManager.current_object (main.object_manager app) with
  | Some g, Some l =>
      ∃ e, objects (main.store app) !! l = Some e ∧
           main.gesture_map g = Some (Entity.class e)
  | None, None => True
  | _, _ => False
  end.

(** A frame that cannot make the controller leave label [L]: no camera
    frame, no hand, or a hand classified as [L] or as IDLE. *)
Definition quiet_for (L : Gesture) (f : main.Frame) : Prop :=
  match main.frame_landmarks f with
  | None => True
  | Some lm =>
      (length lm < 21)%nat ∨
      ((21 <= length lm)%nat ∧ (_detect lm = Some L ∨ _detect lm = Some GESTURE_IDLE))
  end.

(** A frame with a hand classified as [L], seen at a clock reading of at
    least one cooldown. *)
Definition shows_gesture (L : Gesture) (f : main.Frame) : Prop :=
  ∃ lm, main.frame_landmarks f = Some lm ∧
        (21 <= length lm)%nat ∧ _detect lm = Some L ∧
        (SWITCH_COOLDOWN <= main.frame_clock f)%Q.

(** The application after the scene was cleared while FIST was active. *)
Definition cleared_app : main.CinematicUniverse3D :=
  {| main.object_manager := ObjectManager.__init__;
     main.gesture_controller :=
       {| _gesture_hold := GESTURE_FIST;
          _hold_frames := 9;
          _active_gesture := Some GESTURE_FIST;
          _last_switch := 1700000000;
          _frame_count := 9 |};
     main.last_time := 1700000001;
     main.store := empty_store |}.

Definition fist_frame (now : Q) : main.Frame :=
  {| main.frame_now := now;
     main.frame_landmarks := Some fist_hand;
     main.frame_width := 1920;
     main.frame_height := 1080;
     main.frame_clock := now |}.

Definition no_camera_frame (now : Q) : main.Frame :=
  {| main.frame_now := now;
     main.frame_landmarks := None;
     main.frame_width := 1920;
     main.frame_height := 1080;
     main.frame_clock := now |}.

(** The calls of [update] that the loop makes over a sequence of frames:
    one per frame that has a camera image, with the [dt] measured since the
    previous pass ([last] before the first). *)
Fixpoint calls_of (last : Q) (fs : list main.Frame) : list Call :=
  match fs with
  | [] => []
  | f :: fs' =>
      match main.frame_landmarks f with
      | Some lm =>
          [{| call_landmarks := lm;
              call_width := main.frame_width f;
              call_height := main.frame_height f;
              call_dt := main.frame_now f - last;
              call_clock := main.frame_clock f |}]
      | None => []
      end ++ calls_of (main.frame_now f) fs'
  end.

(** * The gesture controller over binary64

    [gesture_controller.py] once more, with the arithmetic of the code:
    coordinates and clock readings are binary64 floats, every difference,
    sum and product is rounded to the nearest double, the constants are the
    doubles nearest to their decimal text, and comparisons are those of
    IEEE 754.  The properties that depend on where a comparison flips are
    settled on this module. *)

Module GestureController64.

Definition Landmark : Type := float * float * float.
Definition Landmarks : Type := list Landmark.

(** [x < y], [x > y] and [x >= y] on floats. *)
Definition lt (x y : float) : bool := PrimFloat.ltb x y.
Definition gt (x y : float) : bool := PrimFloat.ltb y x.
Definition ge (x y : float) : bool := PrimFloat.leb y x.

#[warnings="-inexact-float"] Definition EXTENSION_TOLERANCE : float := 0.03.
Definition GESTURE_STABILITY_FRAMES : nat := 6.
#[warnings="-inexact-float"] Definition SWITCH_COOLDOWN : float := 0.35.

Record t : Type := mk {
  _gesture_hold   : Gesture;
  _hold_frames    : nat;
  _active_gesture : option Gesture;
  _last_switch    : float;
  _frame_count    : nat
}.

Definition __init__ : t :=
  {| _gesture_hold := GESTURE_IDLE;
     _hold_frames := 0;
     _active_gesture := None;
     _last_switch := 0;
     _frame_count := 0 |}.

Definition set_active_gesture (self : t) (gesture_name : option Gesture) : t :=
  {| _gesture_hold := _gesture_hold self;
     _hold_frames := _hold_frames self;
     _active_gesture := gesture_name;
     _last_switch := _last_switch self;
     _frame_count := _frame_count self |}.

Definition _y (landmarks : Landmarks) (idx : nat) : option float :=
  '(_, y, _) ← landmarks !! idx; Some y.

Definition _x (landmarks : Landmarks) (idx : nat) : option float :=
  '(x, _, _) ← landmarks !! idx; Some x.

#[warnings="-inexact-float"] Definition _thumb_extended (lm : Landmarks) : option bool :=
  tip_x ← _x lm 4;
  ip_x ← _x lm 3;
  mcp_x ← _x lm 2;
  wrist_x ← _x lm 0;
  middle_mcp_x ← _x lm 9;
  let hand_side := (wrist_x - middle_mcp_x)%float in
  let extended :=
    if ge hand_side 0
    then gt (ip_x - tip_x) (- EXTENSION_TOLERANCE)
    else gt (tip_x - ip_x) (- EXTENSION_TOLERANCE) in
  tip_y ← _y lm 4;
  mcp_y ← _y lm 2;
  let not_curled_under := lt tip_y (mcp_y + 0.12) in
  Some (extended && not_curled_under).

Definition _finger_extended (lm : Landmarks) (tip pip mcp : nat) : option bool :=
  tip_y ← _y lm tip;
  pip_y ← _y lm pip;
  mcp_y ← _y lm mcp;
  Some (lt tip_y (pip_y - EXTENSION_TOLERANCE) && lt tip_y mcp_y).

Definition _finger_closed (lm : Landmarks) (tip pip mcp : nat) : option bool :=
  tip_y ← _y lm tip;
  pip_y ← _y lm pip;
  Some (gt tip_y (pip_y - EXTENSION_TOLERANCE * 0.5)).

Definition _detect (lm : Landmarks) : option Gesture :=
  thumb ← _thumb_extended lm;
  index ← _finger_extended lm 8 6 5;
  middle ← _finger_extended lm 12 10 9;
  ring ← _finger_extended lm 16 14 13;
  pinky ← _finger_extended lm 20 18 17;
  index_closed ← _finger_closed lm 8 6 5;
  middle_closed ← _finger_closed lm 12 10 9;
  ring_closed ← _finger_closed lm 16 14 13;
  pinky_closed ← _finger_closed lm 20 18 17;
  let is_open_palm := thumb && index && middle && ring && pinky in
  if is_open_palm then Some GESTURE_OPEN_PALM else
  let is_three := index && middle && ring in
  if is_three then Some GESTURE_THREE_FINGERS else
  let is_peace := index && middle && ring_closed && pinky_closed in
  if is_peace then Some GESTURE_PEACE else
  let is_fist := index_closed && middle_closed && ring_closed && pinky_closed in
  if is_fist then Some GESTURE_FIST else
  Some GESTURE_IDLE.

Definition update (self : t) (landmarks : Landmarks) (width height : Z)
    (dt clock : float) : option (t * Gesture) :=
  let frame_count := S (_frame_count self) in
  if falsy landmarks || (length landmarks <? 21)%nat then
    Some ({| _gesture_hold := _gesture_hold self;
             _hold_frames := _hold_frames self;
             _active_gesture := _active_gesture self;
             _last_switch := _last_switch self;
             _frame_count := frame_count |}, GESTURE_IDLE)
  else
  raw_gesture ← _detect landmarks;
  let '(gesture_hold, hold_frames) :=
    if bool_decide (raw_gesture = _gesture_hold self)
    then (_gesture_hold self, S (_hold_frames self))
    else (raw_gesture, 1%nat) in
  let unswitched :=
    {| _gesture_hold := gesture_hold;
       _hold_frames := hold_frames;
       _active_gesture := _active_gesture self;
       _last_switch := _last_switch self;
       _frame_count := frame_count |} in
  if bool_decide (raw_gesture = GESTURE_IDLE) then Some (unswitched, GESTURE_IDLE) else
  if (hold_frames <? GESTURE_STABILITY_FRAMES)%nat then Some (unswitched, GESTURE_IDLE) else
  if bool_decide (Some raw_gesture = _active_gesture self) then Some (unswitched, GESTURE_IDLE) else
  let now := clock in
  if lt (now - _last_switch self) SWITCH_COOLDOWN then Some (unswitched, GESTURE_IDLE) else
  Some ({| _gesture_hold := gesture_hold;
           _hold_frames := hold_frames;
           _active_gesture := Some raw_gesture;
           _last_switch := now;
           _frame_count := frame_count |}, raw_gesture).

End GestureController64.

(** ** Driving the binary64 controller *)










(** The real number a finite double stands for (0 for infinities and NaN,
    which no sample below is). *)
Definition exact (f : float) : Q :=
  match Prim2SF f with
  | S754_finite s m e => (if s then -1 else 1) * inject_Z (Zpos m) * Qpower 2 e
  | _ => 0
  end.

(** ** Sample hands in binary64 *)
















(** * Properties *)

(** ** Comparisons *)

Lemma Qltb_lt (x y : Q) : Qltb x y = true ↔ (x < y)%Q.
Proof. unfold Qltb, Qlt. apply Z.ltb_lt. Qed.

Lemma Qltb_ge (x y : Q) : Qltb x y = false ↔ (y <= x)%Q.
Proof. unfold Qltb, Qle. apply Z.ltb_ge. Qed.

(** ** Reading landmarks *)

Lemma _y_is_Some (lm : Landmarks) (i : nat) :
  (i < length lm)%nat → ∃ v, _y lm i = Some v.
Proof.
  intros Hi. destruct (lookup_lt_is_Some_2 lm i Hi) as [[[x y] z] Hp].
  exists y. unfold _y, Landmarks, Landmark in *. rewrite Hp. reflexivity.
Qed.

Lemma _x_is_Some (lm : Landmarks) (i : nat) :
  (i < length lm)%nat → ∃ v, _x lm i = Some v.
Proof.
  intros Hi. destruct (lookup_lt_is_Some_2 lm i Hi) as [[[x y] z] Hp].
  exists x. unfold _x, Landmarks, Landmark in *. rewrite Hp. reflexivity.
Qed.

Lemma _finger_extended_is_Some (lm : Landmarks) (tip pip mcp : nat) :
  (tip < length lm)%nat → (pip < length lm)%nat → (mcp < length lm)%nat →
  ∃ b, _finger_extended lm tip pip mcp = Some b.
Proof.
  intros Ht Hp Hm. unfold _finger_extended.
  destruct (_y_is_Some lm tip Ht) as [ty ->].
  destruct (_y_is_Some lm pip Hp) as [py ->].
  destruct (_y_is_Some lm mcp Hm) as [my ->].
  simpl. eauto.
Qed.

Lemma _finger_closed_is_Some (lm : Landmarks) (tip pip mcp : nat) :
  (tip < length lm)%nat → (pip < length lm)%nat →
  ∃ b, _finger_closed lm tip pip mcp = Some b.
Proof.
  intros Ht Hp. unfold _finger_closed.
  destruct (_y_is_Some lm tip Ht) as [ty ->].
  destruct (_y_is_Some lm pip Hp) as [py ->].
  simpl. eauto.
Qed.

Lemma _thumb_extended_is_Some (lm : Landmarks) :
  (21 <= length lm)%nat → ∃ b, _thumb_extended lm = Some b.
Proof.
  intros Hlen. unfold _thumb_extended.
  destruct (_x_is_Some lm 4) as [? ->]; [lia|].
  destruct (_x_is_Some lm 3) as [? ->]; [lia|].
  destruct (_x_is_Some lm 2) as [? ->]; [lia|].
  destruct (_x_is_Some lm 0) as [? ->]; [lia|].
  destruct (_x_is_Some lm 9) as [? ->]; [lia|].
  destruct (_y_is_Some lm 4) as [? ->]; [lia|].
  destruct (_y_is_Some lm 2) as [? ->]; [lia|].
  simpl. eauto.
Qed.

(** A finger whose extension test succeeds has its closed test defined too:
    both read the same tip and pip. *)
Lemma _finger_closed_of_extended (lm : Landmarks) (tip pip mcp : nat) (b : bool) :
  _finger_extended lm tip pip mcp = Some b →
  ∃ c, _finger_closed lm tip pip mcp = Some c.
Proof.
  unfold _finger_extended, _finger_closed.
  destruct (_y lm tip) as [ty|]; [|discriminate].
  destruct (_y lm pip) as [py|]; [|discriminate].
  simpl. eauto.
Qed.

(** The classifier never fails on a hand of at least 21 landmarks. *)
Lemma _detect_is_Some (lm : Landmarks) :
  (21 <= length lm)%nat → ∃ g, _detect lm = Some g.
Proof.
  intros Hlen. unfold _detect.
  destruct (_thumb_extended_is_Some lm Hlen) as [thumb ->].
  destruct (_finger_extended_is_Some lm 8 6 5) as [index ->]; [lia..|].
  destruct (_finger_extended_is_Some lm 12 10 9) as [middle ->]; [lia..|].
  destruct (_finger_extended_is_Some lm 16 14 13) as [ring ->]; [lia..|].
  destruct (_finger_extended_is_Some lm 20 18 17) as [pinky ->]; [lia..|].
  destruct (_finger_closed_is_Some lm 8 6 5) as [ic ->]; [lia..|].
  destruct (_finger_closed_is_Some lm 12 10 9) as [mc ->]; [lia..|].
  destruct (_finger_closed_is_Some lm 16 14 13) as [rc ->]; [lia..|].
  destruct (_finger_closed_is_Some lm 20 18 17) as [pc ->]; [lia..|].
  simpl.
  repeat match goal with |- context [if ?b then _ else _] => destruct b end; eauto.
Qed.

(** The rules of [_detect], read in the order of the source: the first one
    that holds decides. *)
Lemma _detect_rule_order (lm : Landmarks) (thumb index middle ring pinky ic mc rc pc : bool) :
  _thumb_extended lm = Some thumb →
  _finger_extended lm 8 6 5 = Some index →
  _finger_extended lm 12 10 9 = Some middle →
  _finger_extended lm 16 14 13 = Some ring →
  _finger_extended lm 20 18 17 = Some pinky →
  _finger_closed lm 8 6 5 = Some ic →
  _finger_closed lm 12 10 9 = Some mc →
  _finger_closed lm 16 14 13 = Some rc →
  _finger_closed lm 20 18 17 = Some pc →
  _detect lm = Some
    (if thumb && index && middle && ring && pinky then GESTURE_OPEN_PALM
     else if index && middle && ring then GESTURE_THREE_FINGERS
     else if index && middle && rc && pc then GESTURE_PEACE
     else if ic && mc && rc && pc then GESTURE_FIST
     else GESTURE_IDLE).
Proof.
  intros Ht Hi Hm Hr Hp Hic Hmc Hrc Hpc. unfold _detect.
  rewrite Ht, Hi, Hm, Hr, Hp, Hic, Hmc, Hrc, Hpc. simpl.
  repeat match goal with |- context [if ?b then _ else _] => destruct b end; reflexivity.
Qed.

(** C5. Priority of OPEN_PALM: when all five fingers are extended, the rule
    of THREE_FINGERS (index, middle and ring extended) holds as well, and the
    classifier answers OPEN_PALM, not THREE_FINGERS, since OPEN_PALM is
    tested first. *)
Theorem open_palm_before_three_fingers (lm : Landmarks) :
  _thumb_extended lm = Some true →
  _finger_extended lm 8 6 5 = Some true →
  _finger_extended lm 12 10 9 = Some true →
  _finger_extended lm 16 14 13 = Some true →
  _finger_extended lm 20 18 17 = Some true →
  _detect lm = Some GESTURE_OPEN_PALM ∧ _detect lm ≠ Some GESTURE_THREE_FINGERS.
Proof.
  intros Ht Hi Hm Hr Hp.
  destruct (_finger_closed_of_extended _ _ _ _ _ Hi) as [ic Hic].
  destruct (_finger_closed_of_extended _ _ _ _ _ Hm) as [mc Hmc].
  destruct (_finger_closed_of_extended _ _ _ _ _ Hr) as [rc Hrc].
  destruct (_finger_closed_of_extended _ _ _ _ _ Hp) as [pc Hpc].
  rewrite (_detect_rule_order lm _ _ _ _ _ _ _ _ _ Ht Hi Hm Hr Hp Hic Hmc Hrc Hpc).
  simpl. split; [reflexivity | discriminate].
Qed.

Lemma open_palm_before_three_fingers_witness :
  _detect open_hand = Some GESTURE_OPEN_PALM ∧
  _detect open_hand ≠ Some GESTURE_THREE_FINGERS.
Proof. apply (open_palm_before_three_fingers open_hand); reflexivity. Defined.

(** ** One call of [update] *)

(** Fewer than 21 landmarks (the empty list included): only the frame
    counter moves. *)
Lemma update_no_hand (self : t) (lm : Landmarks) (w h : Z) (dt clock : Q) :
  (length lm < 21)%nat →
  update self lm w h dt clock =
    Some ({| _gesture_hold := _gesture_hold self;
             _hold_frames := _hold_frames self;
             _active_gesture := _active_gesture self;
             _last_switch := _last_switch self;
             _frame_count := S (_frame_count self) |}, GESTURE_IDLE).
Proof.
  intros Hlen. unfold update.
  apply Nat.ltb_lt in Hlen. rewrite Hlen, orb_true_r. reflexivity.
Qed.

(** A hand is seen and classified as [raw]. *)
Lemma update_hand (self : t) (lm : Landmarks) (w h : Z) (dt clock : Q) (raw : Gesture) :
  (21 <= length lm)%nat → _detect lm = Some raw →
  update self lm w h dt clock =
    Some ({| _gesture_hold := raw;
             _hold_frames := if bool_decide (raw = _gesture_hold self)
                             then S (_hold_frames self) else 1%nat;
             _active_gesture := if confirmed self raw clock
                                then Some raw else _active_gesture self;
             _last_switch := if confirmed self raw clock
                             then clock else _last_switch self;
             _frame_count := S (_frame_count self) |},
          if confirmed self raw clock then raw else GESTURE_IDLE).
Proof.
  intros Hlen Hraw. unfold update, confirmed.
  assert (Hf : falsy lm = false) by (destruct lm; [simpl in Hlen; lia | reflexivity]).
  assert (Hl : (length lm <? 21)%nat = false) by (apply Nat.ltb_ge; exact Hlen).
  rewrite Hf, Hl, Hraw. simpl.
  destruct (bool_decide (raw = _gesture_hold self)) eqn:Hheld.
  - apply bool_decide_eq_true in Hheld. rewrite <- Hheld.
    destruct (bool_decide (raw = GESTURE_IDLE)); simpl; [reflexivity|].
    destruct (S (_hold_frames self) <? GESTURE_STABILITY_FRAMES)%nat; simpl; [reflexivity|].
    destruct (bool_decide (Some raw = _active_gesture self)); simpl; [reflexivity|].
    destruct (Qltb (clock - _last_switch self) SWITCH_COOLDOWN); reflexivity.
  - destruct (bool_decide (raw = GESTURE_IDLE)); simpl; [reflexivity|].
    destruct (bool_decide (Some raw = _active_gesture self)); simpl; reflexivity.
Qed.

(** [update] never raises: the guard on the length protects every index
    that [_detect] reads. *)
Lemma update_is_Some (self : t) (lm : Landmarks) (w h : Z) (dt clock : Q) :
  ∃ self' g, update self lm w h dt clock = Some (self', g).
Proof.
  destruct (Nat.lt_ge_cases (length lm) 21) as [Hlt | Hge].
  - rewrite (update_no_hand _ _ _ _ _ _ Hlt). eauto.
  - destruct (_detect_is_Some lm Hge) as [raw Hraw].
    rewrite (update_hand _ _ _ _ _ _ _ Hge Hraw). eauto.
Qed.

(** What a call can do to the switch bookkeeping: either it emits IDLE and
    leaves the active label and the switch time alone, or it emits a
    confirmed label, which becomes the active one, at a clock reading at
    least one cooldown after the previous switch time. *)
Lemma update_call_cases (self : t) (c : Call) :
  ∃ self' g, update_call self c = Some (self', g) ∧
    ((g = GESTURE_IDLE ∧ _active_gesture self' = _active_gesture self
        ∧ _last_switch self' = _last_switch self)
     ∨ (g ≠ GESTURE_IDLE ∧ _active_gesture self' = Some g
        ∧ _last_switch self' = call_clock c
        ∧ (SWITCH_COOLDOWN <= call_clock c - _last_switch self)%Q
        ∧ Some g ≠ _active_gesture self)).
Proof.
  unfold update_call.
  destruct (Nat.lt_ge_cases (length (call_landmarks c)) 21) as [Hlt | Hge].
  - rewrite (update_no_hand _ _ _ _ _ _ Hlt). eexists _, _. split; [reflexivity|].
    left. auto.
  - destruct (_detect_is_Some _ Hge) as [raw Hraw].
    rewrite (update_hand _ _ _ _ _ _ _ Hge Hraw). eexists _, _. split; [reflexivity|].
    destruct (confirmed self raw (call_clock c)) eqn:Hc; simpl.
    + right. unfold confirmed in Hc.
      rewrite !andb_true_iff, !negb_true_iff in Hc.
      destruct Hc as [[[Hidle _] Hact] Hcool].
      apply bool_decide_eq_false in Hidle, Hact. apply Qltb_ge in Hcool.
      auto.
    + left. auto.
Qed.

(** ** No hand *)

Lemma _y_take (lm : Landmarks) (i : nat) :
  (i < 21)%nat → _y (take 21 lm) i = _y lm i.
Proof.
  intros Hi. unfold _y, Landmarks, Landmark in *.
  rewrite lookup_take_lt by exact Hi. reflexivity.
Qed.

Lemma _x_take (lm : Landmarks) (i : nat) :
  (i < 21)%nat → _x (take 21 lm) i = _x lm i.
Proof.
  intros Hi. unfold _x, Landmarks, Landmark in *.
  rewrite lookup_take_lt by exact Hi. reflexivity.
Qed.

(** [_detect] reads the landmarks 0 to 20 and nothing else. *)
Lemma _detect_take (lm : Landmarks) : _detect (take 21 lm) = _detect lm.
Proof.
  unfold _detect, _thumb_extended, _finger_extended, _finger_closed.
  rewrite !_y_take, !_x_take by lia. reflexivity.
Qed.

(** C3, as stated, fails for lists longer than 21: the guard of [update] is
    [len(landmarks) < 21], so 22 landmarks are classified like a hand.  One
    such call from the initial state moves the held label and the hold
    counter, and six of them emit FIST. *)
Lemma longer_than_21_is_a_hand :
  length long_fist_hand = 22%nat ∧
  update __init__ long_fist_hand 1920 1080 0.016 1700000000 =
    Some ({| _gesture_hold := GESTURE_FIST;
             _hold_frames := 1;
             _active_gesture := None;
             _last_switch := 0;
             _frame_count := 1 |}, GESTURE_IDLE) ∧
  snd <$> run_calls __init__ (repeat (call_at long_fist_hand 1700000000) 6) =
    Some [GESTURE_IDLE; GESTURE_IDLE; GESTURE_IDLE; GESTURE_IDLE; GESTURE_IDLE;
          GESTURE_FIST].
Proof. repeat split; vm_compute; reflexivity. Qed.

(** C3, amended. A landmark list shorter than 21 (the empty list included)
    is no hand: [update] returns IDLE and keeps the held label, the hold
    counter, the active label and the last switch time (only the frame
    counter advances).  A list of 21 or more is a hand, read through its
    first 21 landmarks. *)
Theorem fewer_than_21_is_no_hand (self : t) (lm : Landmarks) (w h : Z) (dt clock : Q) :
  ((length lm < 21)%nat →
     ∃ self', update self lm w h dt clock = Some (self', GESTURE_IDLE) ∧
       _gesture_hold self' = _gesture_hold self ∧
       _hold_frames self' = _hold_frames self ∧
       _active_gesture self' = _active_gesture self ∧
       _last_switch self' = _last_switch self)
  ∧ ((21 <= length lm)%nat →
       update self lm w h dt clock = update self (take 21 lm) w h dt clock).
Proof.
  split.
  - intros Hlen. rewrite (update_no_hand _ _ _ _ _ _ Hlen).
    eexists. split; [reflexivity|]. simpl. auto.
  - intros Hlen. destruct (_detect_is_Some lm Hlen) as [raw Hraw].
    rewrite (update_hand self lm _ _ _ _ _ Hlen Hraw).
    symmetry. apply update_hand.
    + rewrite length_take_le by exact Hlen. lia.
    + rewrite _detect_take. exact Hraw.
Qed.

Lemma fewer_than_21_is_no_hand_witness :
  (∃ self', update __init__ [] 1920 1080 0.016 1700000000 = Some (self', GESTURE_IDLE) ∧
     _gesture_hold self' = GESTURE_IDLE ∧ _hold_frames self' = 0%nat ∧
     _active_gesture self' = None ∧ _last_switch self' = 0%Q)
  ∧ update __init__ long_fist_hand 1920 1080 0.016 1700000000 =
      update __init__ (take 21 long_fist_hand) 1920 1080 0.016 1700000000.
Proof.
  split.
  - apply (proj1 (fewer_than_21_is_no_hand __init__ [] 1920 1080 0.016 1700000000)).
    simpl. lia.
  - apply (proj2 (fewer_than_21_is_no_hand __init__ long_fist_hand 1920 1080 0.016 1700000000)).
    simpl. lia.
Defined.

(** ** Runs of calls *)

Lemma run_calls_cons (self self2 : t) (c : Call) (cs : list Call) (gs : list Gesture) :
  run_calls self (c :: cs) = Some (self2, gs) →
  ∃ self1 g gs', update_call self c = Some (self1, g) ∧
    run_calls self1 cs = Some (self2, gs') ∧ gs = g :: gs'.
Proof.
  simpl. destruct (update_call self c) as [[self1 g]|]; simpl; [|discriminate].
  destruct (run_calls self1 cs) as [[self2' gs']|] eqn:Hrun; simpl; [|discriminate].
  intros [= <- <-]. eexists _, _, _. repeat split. exact Hrun.
Qed.

Lemma run_calls_app (self : t) (cs cs' : list Call) :
  run_calls self (cs ++ cs') =
    '(self1, gs) ← run_calls self cs;
    '(self2, gs') ← run_calls self1 cs';
    Some (self2, gs ++ gs').
Proof.
  revert self. induction cs as [|c cs IH]; intros self; simpl.
  - destruct (run_calls self cs') as [[self2 gs']|]; reflexivity.
  - destruct (update_call self c) as [[self1 g]|]; simpl; [|reflexivity].
    rewrite IH. destruct (run_calls self1 cs) as [[self2 gs]|]; simpl; [|reflexivity].
    destruct (run_calls self2 cs') as [[self3 gs']|]; reflexivity.
Qed.

Lemma update_call_classified (self : t) (c : Call) (L : Gesture) :
  classifies L c →
  update_call self c =
    Some ({| _gesture_hold := L;
             _hold_frames := S (streak self L);
             _active_gesture := if confirmed self L (call_clock c)
                                then Some L else _active_gesture self;
             _last_switch := if confirmed self L (call_clock c)
                             then call_clock c else _last_switch self;
             _frame_count := S (_frame_count self) |},
          if confirmed self L (call_clock c) then L else GESTURE_IDLE).
Proof.
  intros [Hlen HL]. unfold update_call.
  rewrite (update_hand _ _ _ _ _ _ _ Hlen HL). unfold streak.
  destruct (bool_decide (L = _gesture_hold self)); reflexivity.
Qed.

Lemma confirmed_spec (self : t) (L : Gesture) (clock : Q) :
  confirmed self L clock = true ↔
    L ≠ GESTURE_IDLE ∧ (GESTURE_STABILITY_FRAMES <= S (streak self L))%nat ∧
    Some L ≠ _active_gesture self ∧
    (SWITCH_COOLDOWN <= clock - _last_switch self)%Q.
Proof.
  unfold confirmed, streak.
  rewrite !andb_true_iff, !negb_true_iff, !bool_decide_eq_false, Qltb_ge, Nat.ltb_ge.
  destruct (bool_decide (L = _gesture_hold self)); unfold GESTURE_STABILITY_FRAMES;
    (split; [intros [[[? ?] ?] ?] | intros (? & ? & ? & ?)]); repeat split; auto; lia.
Qed.

(** While the streak stays below the threshold, every call returns IDLE and
    the switch bookkeeping is untouched. *)
Lemma run_calls_below_threshold (L : Gesture) (cs : list Call) :
  ∀ self : t,
    Forall (classifies L) cs →
    (streak self L + length cs < GESTURE_STABILITY_FRAMES)%nat →
    ∃ self', run_calls self cs = Some (self', repeat GESTURE_IDLE (length cs)) ∧
      streak self' L = (streak self L + length cs)%nat ∧
      _active_gesture self' = _active_gesture self ∧
      _last_switch self' = _last_switch self.
Proof.
  induction cs as [|c cs IH]; intros self Hcs Hlt.
  - exists self. simpl. repeat split; auto.
  - apply Forall_cons in Hcs as [Hc Hcs]. simpl in Hlt.
    assert (Hno : confirmed self L (call_clock c) = false).
    { apply not_true_is_false. rewrite confirmed_spec. intros (_ & Hge & _). lia. }
    pose proof (update_call_classified self c L Hc) as Hstep. rewrite Hno in Hstep.
    match type of Hstep with _ = Some (?s, _) => set (self1 := s) in * end.
    assert (Hs1 : streak self1 L = S (streak self L)).
    { unfold streak at 1. simpl. rewrite bool_decide_eq_true_2 by reflexivity. reflexivity. }
    destruct (IH self1 Hcs) as (self' & Hrun & Hstreak & Hact & Hlast).
    { rewrite Hs1. lia. }
    exists self'. simpl. rewrite Hstep. simpl. rewrite Hrun. simpl.
    repeat split; auto. rewrite Hstreak, Hs1. lia.
Qed.

(** ** Debounce *)




(** ** No self-reconfirmation *)

(** C4. While [L] is the active label, a call whose raw classification is
    [L] returns IDLE and leaves [L] active; hence any number of consecutive
    such calls returns IDLE throughout, however long the streak grows. *)
Theorem active_label_is_not_reemitted (L : Gesture) (cs : list Call) :
  ∀ self : t,
    _active_gesture self = Some L →
    Forall (classifies L) cs →
    ∃ self', run_calls self cs = Some (self', repeat GESTURE_IDLE (length cs)) ∧
      _active_gesture self' = Some L ∧
      _last_switch self' = _last_switch self.
Proof.
  induction cs as [|c cs IH]; intros self Hact Hcs.
  - exists self. simpl. auto.
  - apply Forall_cons in Hcs as [Hc Hcs].
    assert (Hno : confirmed self L (call_clock c) = false).
    { apply not_true_is_false. rewrite confirmed_spec, Hact. intros (_ & _ & Hne & _).
      apply Hne. reflexivity. }
    pose proof (update_call_classified self c L Hc) as Hstep. rewrite Hno in Hstep.
    match type of Hstep with _ = Some (?s, _) => set (self1 := s) in * end.
    destruct (IH self1 Hact Hcs) as (self' & Hrun & Hact' & Hlast').
    exists self'. simpl. rewrite Hstep. simpl. rewrite Hrun. simpl. auto.
Qed.

Lemma active_label_is_not_reemitted_witness :
  ∃ self', run_calls (set_active_gesture __init__ (Some GESTURE_FIST))
             (repeat (call_at fist_hand 1700000000) 13) =
             Some (self', repeat GESTURE_IDLE 13) ∧
    _active_gesture self' = Some GESTURE_FIST ∧
    _last_switch self' = 0%Q.
Proof.
  apply (active_label_is_not_reemitted GESTURE_FIST
           (repeat (call_at fist_hand 1700000000) 13)
           (set_active_gesture __init__ (Some GESTURE_FIST))).
  - reflexivity.
  - repeat constructor.
Defined.

(** ** Scene ownership *)

Lemma spawn_keep (self : ObjectManager.t) (σ : Store) (label : option Gesture)
    (cls : Entity.Class) :
  label = ObjectManager.current_gesture self →
  ObjectManager.current_object self ≠ None →
  ObjectManager.spawn self σ label cls = (self, σ, false).
Proof.
  intros Hlab Hobj. unfold ObjectManager.spawn.
  rewrite bool_decide_eq_true_2 by exact Hlab.
  rewrite bool_decide_eq_true_2 by exact Hobj. reflexivity.
Qed.

Lemma spawn_replace (self : ObjectManager.t) (σ : Store) (label : option Gesture)
    (cls : Entity.Class) :
  label ≠ ObjectManager.current_gesture self ∨ ObjectManager.current_object self = None →
  ObjectManager.spawn self σ label cls =
    ({| ObjectManager.current_object := Some (fresh (dom (objects σ)));
        ObjectManager.current_gesture := label |},
     {| objects := ObjectManager.release (ObjectManager.current_object self)
                     (<[fresh (dom (objects σ)) := Entity.__init__ cls]> (objects σ));
        drawn := drawn σ |},
     true).
Proof.
  intros Hcase. unfold ObjectManager.spawn.
  destruct Hcase as [Hne | Hnone].
  - rewrite bool_decide_eq_false_2 by exact Hne. reflexivity.
  - rewrite (bool_decide_eq_false_2 (ObjectManager.current_object self ≠ None)).
    + rewrite andb_false_r. reflexivity.
    + intros Hobj. apply Hobj. exact Hnone.
Qed.

(** [spawn] takes one of its two branches. *)
Lemma spawn_cases (self : ObjectManager.t) (σ : Store) (label : option Gesture)
    (cls : Entity.Class) :
  (label = ObjectManager.current_gesture self ∧
   ObjectManager.current_object self ≠ None ∧
   ObjectManager.spawn self σ label cls = (self, σ, false))
  ∨ ((label ≠ ObjectManager.current_gesture self ∨ ObjectManager.current_object self = None) ∧
     ObjectManager.spawn self σ label cls =
       ({| ObjectManager.current_object := Some (fresh (dom (objects σ)));
           ObjectManager.current_gesture := label |},
        {| objects := ObjectManager.release (ObjectManager.current_object self)
                        (<[fresh (dom (objects σ)) := Entity.__init__ cls]> (objects σ));
           drawn := drawn σ |},
        true)).
Proof.
  destruct (decide (label = ObjectManager.current_gesture self)) as [Hlab | Hne].
  - destruct (ObjectManager.current_object self) as [l0|] eqn:Hcur.
    + left. split; [exact Hlab|]. split; [discriminate|].
      apply spawn_keep; [exact Hlab | rewrite Hcur; discriminate].
    + right. split; [right; reflexivity|].
      rewrite (spawn_replace self σ label cls), Hcur; [reflexivity | right; exact Hcur].
  - right. split; [left; exact Hne|]. apply spawn_replace. left. exact Hne.
Qed.

(** The identity handed out by [spawn] is new, and the entity behind it is
    the one just constructed. *)
Lemma spawn_fresh_entity (self : ObjectManager.t) (σ : Store) (cls : Entity.Class) :
  let l := fresh (dom (objects σ)) in
  objects σ !! l = None ∧
  ((∀ l0, ObjectManager.current_object self = Some l0 → is_Some (objects σ !! l0)) →
     ObjectManager.release (ObjectManager.current_object self)
       (<[l := Entity.__init__ cls]> (objects σ)) !! l = Some (Entity.__init__ cls) ∧
     ObjectManager.current_object self ≠ Some l).
Proof.
  intros l.
  assert (Hnew : objects σ !! l = None) by (apply not_elem_of_dom, is_fresh).
  split; [exact Hnew|]. intros Hwf.
  destruct (ObjectManager.current_object self) as [l0|]; simpl.
  - assert (Hne : l0 ≠ l).
    { intros ->. destruct (Hwf l eq_refl) as [e He]. congruence. }
    rewrite lookup_delete_ne by exact Hne. rewrite lookup_insert_eq.
    split; [reflexivity | congruence].
  - rewrite lookup_insert_eq. split; [reflexivity | discriminate].
Qed.

(** C6. [spawn label factory] replaces the active entity exactly when
    [label] differs from the owning label or no entity is active, and
    returns whether it did.  When it does not, manager and store are left as
    they were; when it does, the owning label becomes [label] and the slot
    holds a newly constructed entity whose identity did not exist before.
    A second [spawn] with the same label, right after, returns false and
    leaves the entity instance and the owning label as the first call left
    them. *)
Theorem spawn_replaces_iff_new_owner (self self1 : ObjectManager.t) (σ σ1 : Store)
    (label : option Gesture) (cls cls2 : Entity.Class) (replaced : bool) :
  ObjectManager.spawn self σ label cls = (self1, σ1, replaced) →
  (replaced = true ↔
     label ≠ ObjectManager.current_gesture self ∨ ObjectManager.current_object self = None)
  ∧ (replaced = false → self1 = self ∧ σ1 = σ)
  ∧ (replaced = true →
       ObjectManager.current_gesture self1 = label ∧
       ∃ l : loc, ObjectManager.current_object self1 = Some l ∧
         objects σ !! l = None ∧
         ((∀ l0, ObjectManager.current_object self = Some l0 → is_Some (objects σ !! l0)) →
            objects σ1 !! l = Some (Entity.__init__ cls) ∧
            ObjectManager.current_object self ≠ Some l))
  ∧ ObjectManager.spawn self1 σ1 label cls2 = (self1, σ1, false).
Proof.
  intros Hspawn.
  destruct (spawn_cases self σ label cls) as [(Hlab & Hobj & Heq) | (Hyes & Heq)];
    rewrite Heq in Hspawn; injection Hspawn as <- <- <-.
  - split; [split; [discriminate|]|].
    { intros [Hne | Hnone]; [contradiction | rewrite Hnone in Hobj; contradiction]. }
    split; [auto|]. split; [discriminate|].
    apply spawn_keep; assumption.
  - split; [split; auto|]. split; [discriminate|]. split.
    + intros _. simpl. split; [reflexivity|].
      eexists. split; [reflexivity|]. apply spawn_fresh_entity.
    + apply spawn_keep; simpl; [reflexivity | discriminate].
Qed.

Lemma spawn_replaces_iff_new_owner_witness :
  (true = true ↔ Some GESTURE_FIST ≠ None ∨ @None loc = None)
  ∧ ObjectManager.spawn
      {| ObjectManager.current_object := Some 0%nat;
         ObjectManager.current_gesture := Some GESTURE_FIST |}
      {| objects := {[ 0%nat := Entity.__init__ Entity.EnergyOrb ]}; drawn := [] |}
      (Some GESTURE_FIST) Entity.EnergyOrb =
    ({| ObjectManager.current_object := Some 0%nat;
        ObjectManager.current_gesture := Some GESTURE_FIST |},
     {| objects := {[ 0%nat := Entity.__init__ Entity.EnergyOrb ]}; drawn := [] |},
     false).
Proof.
  destruct (spawn_replaces_iff_new_owner ObjectManager.__init__ _ empty_store _
              (Some GESTURE_FIST) Entity.EnergyOrb Entity.EnergyOrb true eq_refl)
    as (Hiff & _ & _ & Hagain).
  split; [exact Hiff | exact Hagain].
Defined.

(** ** Animation never removes the entity *)

Lemma Entity_update_age (e : Entity.t) (dt : Q) :
  Entity.age (fst (Entity.update e dt)) = (Entity.age e + dt)%Q ∧
  Entity.class (fst (Entity.update e dt)) = Entity.class e.
Proof. unfold Entity.update. destruct (Entity.class e) eqn:Hc; simpl; auto. Qed.

(** C7. [update dt] and [draw] leave [current_object] (the identity held in
    the slot) and [current_gesture] as they were, and remove no object from
    the store.  [update] advances the active entity by [dt] and keeps it,
    whatever alive-flag the entity's own [update] returned; that flag can be
    false, as for a flower older than 22 seconds. *)
Theorem update_and_draw_keep_the_entity (self : ObjectManager.t) (σ : Store) (dt : Q) :
  fst (ObjectManager.update self σ dt) = self
  ∧ fst (ObjectManager.draw self σ) = self
  ∧ dom (objects (snd (ObjectManager.update self σ dt))) = dom (objects σ)
  ∧ objects (snd (ObjectManager.draw self σ)) = objects σ
  ∧ (∀ (l : loc) (e : Entity.t) (alive : bool),
       ObjectManager.current_object self = Some l →
       objects σ !! l = Some e →
       snd (Entity.update e dt) = alive →
       objects (snd (ObjectManager.update self σ dt)) !! l = Some (fst (Entity.update e dt)) ∧
       Entity.age (fst (Entity.update e dt)) = (Entity.age e + dt)%Q ∧
       Entity.class (fst (Entity.update e dt)) = Entity.class e)
  ∧ snd (Entity.update old_flower dt) = Qltb (30 + dt) 22.0.
Proof.
  assert (Hlast : snd (Entity.update old_flower dt) = Qltb (30 + dt) 22.0) by reflexivity.
  unfold ObjectManager.update, ObjectManager.draw.
  destruct (ObjectManager.current_object self) as [l0|] eqn:Hcur; simpl.
  - split; [reflexivity|]. split; [reflexivity|]. split; [apply dom_alter_L|].
    split; [reflexivity|]. split; [|exact Hlast].
    intros l e alive [= <-] He _.
    rewrite lookup_alter_eq, He. split; [reflexivity | apply Entity_update_age].
  - split; [reflexivity|]. split; [reflexivity|]. split; [reflexivity|].
    split; [reflexivity|]. split; [|exact Hlast].
    intros l e alive Hl. discriminate.
Qed.

Lemma update_and_draw_keep_the_entity_witness :
  snd (Entity.update old_flower 0.016) = false ∧
  objects (snd (ObjectManager.update flower_manager flower_store 0.016)) !! 0%nat =
    Some (fst (Entity.update old_flower 0.016)) ∧
  Entity.age (fst (Entity.update old_flower 0.016)) = (30 + 0.016)%Q ∧
  Entity.class (fst (Entity.update old_flower 0.016)) = Entity.Flower.
Proof.
  split; [reflexivity|].
  destruct (update_and_draw_keep_the_entity flower_manager flower_store 0.016)
    as (_ & _ & _ & _ & H & _).
  apply (H 0%nat old_flower false); reflexivity.
Defined.

(** ** The scene invariants *)

Lemma scene_inv_init : scene_inv (ObjectManager.__init__, empty_store).
Proof. split; simpl; [apply dom_empty_L | tauto]. Qed.

Lemma scene_inv_step (s : ObjectManager.t * Store) (op : SceneOp) :
  scene_inv s → scene_inv (scene_step s op).
Proof.
  destruct s as [self σ]. intros [Hdom Hiff]. simpl in Hdom, Hiff.
  destruct op as [g c | dt | |]; simpl.
  - (* spawn *)
    destruct (spawn_cases self σ (Some g) c) as [(Hlab & Hobj & ->) | (Hyes & ->)].
    + split; assumption.
    + split; simpl; [|split; discriminate].
      pose proof (is_fresh (dom (objects σ))) as Hfresh.
      destruct (ObjectManager.current_object self) as [l0|]; simpl.
      * rewrite dom_delete_L, dom_insert_L, Hdom. rewrite Hdom in Hfresh.
        apply not_elem_of_singleton in Hfresh.
        apply set_eq. intros x.
        rewrite elem_of_difference, elem_of_union, !elem_of_singleton.
        split; [tauto|]. intros ->. tauto.
      * rewrite dom_insert_L, Hdom. apply union_empty_r_L.
  - (* update *)
    unfold ObjectManager.update.
    destruct (ObjectManager.current_object self) as [l0|] eqn:Hcur; split; simpl;
      rewrite ?Hcur, ?dom_alter_L; assumption.
  - (* draw *)
    unfold ObjectManager.draw.
    destruct (ObjectManager.current_object self) as [l0|] eqn:Hcur; split; simpl;
      rewrite ?Hcur; assumption.
  - (* clear *)
    split; simpl; [|tauto].
    destruct (ObjectManager.current_object self) as [l0|]; simpl.
    + rewrite dom_delete_L, Hdom. apply difference_diag_L.
    + exact Hdom.
Qed.

Lemma scene_inv_foldl (ops : list SceneOp) :
  ∀ s, scene_inv s → scene_inv (foldl scene_step s ops).
Proof.
  induction ops as [|op ops IH]; intros s Hs; simpl; [exact Hs|].
  apply IH, scene_inv_step, Hs.
Qed.

(** C8. After any sequence of [spawn] (with a gesture label), [update],
    [draw] and [clear] from the empty scene, at most one entity exists, the
    one in the slot if any, and the owning label is [None] exactly when the
    active entity is [None]. *)
Theorem scene_has_one_owner_or_none (ops : list SceneOp) :
  (size (objects (snd (scene_run ops))) <= 1)%nat
  ∧ dom (objects (snd (scene_run ops))) =
      match ObjectManager.current_object (fst (scene_run ops)) with
      | Some l => {[ l ]}
      | None => (∅ : gset nat)
      end
  ∧ (ObjectManager.current_gesture (fst (scene_run ops)) = None ↔
     ObjectManager.current_object (fst (scene_run ops)) = None).
Proof.
  destruct (scene_inv_foldl ops _ scene_inv_init) as [Hdom Hiff].
  fold (scene_run ops) in Hdom, Hiff.
  split; [|split; assumption].
  rewrite <- size_dom, Hdom.
  destruct (ObjectManager.current_object (fst (scene_run ops))).
  - rewrite size_singleton. lia.
  - rewrite size_empty. lia.
Qed.

(** ** The controller and the scene agree on the active gesture *)

Lemma handle_gestures_agree (app : main.CinematicUniverse3D) (w h : Z) (dt : Q)
    (lm : Landmarks) (clock : Q) :
  agree app →
  ∃ app', main.handle_gestures app w h dt lm clock = Some app' ∧ agree app'.
Proof.
  unfold agree. intros Hag.
  destruct (update_call_cases (main.gesture_controller app) (mkCall lm w h dt clock))
    as (gc & g & Hstep & Hcases).
  unfold update_call in Hstep. simpl in Hstep, Hcases.
  unfold main.handle_gestures. rewrite Hstep. simpl.
  destruct Hcases as [(-> & Hact & _) | (Hg & Hact & _)].
  - rewrite bool_decide_eq_true_2 by reflexivity.
    eexists. split; [reflexivity|]. simpl. congruence.
  - rewrite bool_decide_eq_false_2 by exact Hg.
    assert (Hmap : ∃ cls, main.gesture_map g = Some cls).
    { destruct g; simpl; eauto. contradiction. }
    destruct Hmap as [cls ->].
    destruct (spawn_cases (main.object_manager app) (main.store app) (Some g) cls)
      as [(Hlab & Hobj & ->) | (Hyes & ->)];
      (eexists; split; [reflexivity|]); simpl; congruence.
Qed.

Lemma step_agree (app : main.CinematicUniverse3D) (f : main.Frame) :
  agree app → ∃ app', main.step app f = Some app' ∧ agree app'.
Proof.
  intros Hag. unfold main.step.
  match goal with
  | |- context [main.handle_gestures ?a _ _ _ _ _] => set (app0 := a)
  end.
  assert (Hag0 : agree app0) by exact Hag.
  assert (H1 : ∃ app1,
             match main.frame_landmarks f with
             | Some landmarks =>
                 main.handle_gestures app0 (main.frame_width f) (main.frame_height f)
                   (main.frame_now f - main.last_time app) landmarks (main.frame_clock f)
             | None => Some app0
             end = Some app1 ∧ agree app1).
  { destruct (main.frame_landmarks f) as [lm|]; [apply handle_gestures_agree; exact Hag0 | eauto]. }
  destruct H1 as (app1 & -> & Hag1). simpl.
  unfold ObjectManager.update, ObjectManager.draw.
  destruct (ObjectManager.current_object (main.object_manager app1)) as [l|] eqn:Hcur;
    simpl; rewrite ?Hcur; eexists; (split; [reflexivity | exact Hag1]).
Qed.



(** * Further properties of the code *)

(** ** What the classifier answers, and what it reads *)

Lemma Qltb_proper (x x' y y' : Q) :
  (x == x')%Q → (y == y')%Q → Qltb x y = Qltb x' y'.
Proof.
  intros Hx Hy. destruct (Qltb x' y') eqn:H'.
  - apply Qltb_lt. rewrite Hx, Hy. apply Qltb_lt. exact H'.
  - apply Qltb_ge. rewrite Hx, Hy. apply Qltb_ge. exact H'.
Qed.

Lemma Qgeb_le (x y : Q) : Qgeb x y = true ↔ (y <= x)%Q.
Proof. unfold Qgeb. apply Qle_bool_iff. Qed.

(** No finger is both extended and closed. *)
Lemma extended_excludes_closed (lm : Landmarks) (tip pip mcp : nat) :
  _finger_extended lm tip pip mcp = Some true →
  _finger_closed lm tip pip mcp = Some true → False.
Proof.
  unfold _finger_extended, _finger_closed, Qgtb.
  destruct (_y lm tip) as [ty|]; [|discriminate].
  destruct (_y lm pip) as [py|]; [|discriminate].
  destruct (_y lm mcp) as [my|]; [|discriminate]. simpl.
  intros [= He] [= Hc]. apply andb_true_iff in He as [He _].
  apply Qltb_lt in He, Hc. unfold EXTENSION_TOLERANCE in *. lra.
Qed.

Lemma closed_not_extended (lm : Landmarks) (tip pip mcp : nat) (e : bool) :
  _finger_extended lm tip pip mcp = Some e →
  _finger_closed lm tip pip mcp = Some true → e = false.
Proof.
  intros He Hc. destruct e; [|reflexivity].
  exfalso. exact (extended_excludes_closed _ _ _ _ He Hc).
Qed.

(** A successful [_detect] has read the nine finger tests, and answers with
    the first rule that holds. *)
Lemma _detect_inv (lm : Landmarks) (g : Gesture) :
  _detect lm = Some g →
  ∃ thumb index middle ring pinky ic mc rc pc : bool,
    _thumb_extended lm = Some thumb ∧
    _finger_extended lm 8 6 5 = Some index ∧
    _finger_extended lm 12 10 9 = Some middle ∧
    _finger_extended lm 16 14 13 = Some ring ∧
    _finger_extended lm 20 18 17 = Some pinky ∧
    _finger_closed lm 8 6 5 = Some ic ∧
    _finger_closed lm 12 10 9 = Some mc ∧
    _finger_closed lm 16 14 13 = Some rc ∧
    _finger_closed lm 20 18 17 = Some pc ∧
    g = (if thumb && index && middle && ring && pinky then GESTURE_OPEN_PALM
         else if index && middle && ring then GESTURE_THREE_FINGERS
         else if index && middle && rc && pc then GESTURE_PEACE
         else if ic && mc && rc && pc then GESTURE_FIST
         else GESTURE_IDLE).
Proof.
  intros Hdet.
  destruct (_thumb_extended lm) as [thumb|] eqn:Ht;
    [|unfold _detect in Hdet; rewrite Ht in Hdet; discriminate].
  destruct (_finger_extended lm 8 6 5) as [index|] eqn:Hi;
    [|unfold _detect in Hdet; rewrite Ht, Hi in Hdet; discriminate].
  destruct (_finger_extended lm 12 10 9) as [middle|] eqn:Hm;
    [|unfold _detect in Hdet; rewrite Ht, Hi, Hm in Hdet; discriminate].
  destruct (_finger_extended lm 16 14 13) as [ring|] eqn:Hr;
    [|unfold _detect in Hdet; rewrite Ht, Hi, Hm, Hr in Hdet; discriminate].
  destruct (_finger_extended lm 20 18 17) as [pinky|] eqn:Hp;
    [|unfold _detect in Hdet; rewrite Ht, Hi, Hm, Hr, Hp in Hdet; discriminate].
  destruct (_finger_closed_of_extended _ _ _ _ _ Hi) as [ic Hic].
  destruct (_finger_closed_of_extended _ _ _ _ _ Hm) as [mc Hmc].
  destruct (_finger_closed_of_extended _ _ _ _ _ Hr) as [rc Hrc].
  destruct (_finger_closed_of_extended _ _ _ _ _ Hp) as [pc Hpc].
  rewrite (_detect_rule_order lm _ _ _ _ _ _ _ _ _ Ht Hi Hm Hr Hp Hic Hmc Hrc Hpc) in Hdet.
  injection Hdet as <-.
  exists thumb, index, middle, ring, pinky, ic, mc, rc, pc. repeat split; assumption.
Qed.

(** X1. Each answer of the classifier tells what the fingers do: OPEN_PALM
    means all five extended; THREE_FINGERS means index, middle and ring
    extended, with thumb or pinky not; PEACE means index and middle extended,
    ring and pinky closed and not extended; FIST means the four non-thumb
    fingers closed and none of them extended. *)
Theorem detect_answer_is_sound (lm : Landmarks) (g : Gesture) :
  _detect lm = Some g →
  match g with
  | GESTURE_OPEN_PALM =>
      _thumb_extended lm = Some true ∧
      Forall (λ '(tip, pip, mcp), _finger_extended lm tip pip mcp = Some true)
        non_thumb_fingers
  | GESTURE_THREE_FINGERS =>
      _finger_extended lm 8 6 5 = Some true ∧
      _finger_extended lm 12 10 9 = Some true ∧
      _finger_extended lm 16 14 13 = Some true ∧
      ¬ (_thumb_extended lm = Some true ∧ _finger_extended lm 20 18 17 = Some true)
  | GESTURE_PEACE =>
      _finger_extended lm 8 6 5 = Some true ∧
      _finger_extended lm 12 10 9 = Some true ∧
      _finger_closed lm 16 14 13 = Some true ∧
      _finger_closed lm 20 18 17 = Some true ∧
      _finger_extended lm 16 14 13 = Some false ∧
      _finger_extended lm 20 18 17 = Some false
  | GESTURE_FIST =>
      Forall (λ '(tip, pip, mcp),
                _finger_closed lm tip pip mcp = Some true ∧
                _finger_extended lm tip pip mcp = Some false)
        non_thumb_fingers
  | GESTURE_IDLE => True
  end.
Proof.
  intros Hdet.
  destruct (_detect_inv lm g Hdet)
    as (thumb & index & middle & ring & pinky & ic & mc & rc & pc
        & Ht & Hi & Hm & Hr & Hp & Hic & Hmc & Hrc & Hpc & ->).
  destruct (thumb && index && middle && ring && pinky) eqn:Hopen.
  { repeat (apply andb_true_iff in Hopen as [Hopen ?]). subst.
    split; [assumption|]. unfold non_thumb_fingers. repeat constructor; assumption. }
  destruct (index && middle && ring) eqn:Hthree.
  { repeat (apply andb_true_iff in Hthree as [Hthree ?]). subst.
    repeat split; try assumption.
    intros [Ht' Hp']. rewrite Ht in Ht'. rewrite Hp in Hp'.
    injection Ht' as ->. injection Hp' as ->. discriminate. }
  destruct (index && middle && rc && pc) eqn:Hpeace.
  { repeat (apply andb_true_iff in Hpeace as [Hpeace ?]). subst.
    rewrite (closed_not_extended _ _ _ _ _ Hr Hrc) in Hr.
    rewrite (closed_not_extended _ _ _ _ _ Hp Hpc) in Hp.
    repeat split; assumption. }
  destruct (ic && mc && rc && pc) eqn:Hfist; [|exact I].
  repeat (apply andb_true_iff in Hfist as [Hfist ?]). subst.
  rewrite (closed_not_extended _ _ _ _ _ Hi Hic) in Hi.
  rewrite (closed_not_extended _ _ _ _ _ Hm Hmc) in Hm.
  rewrite (closed_not_extended _ _ _ _ _ Hr Hrc) in Hr.
  rewrite (closed_not_extended _ _ _ _ _ Hp Hpc) in Hp.
  unfold non_thumb_fingers. repeat constructor; assumption.
Qed.

Lemma detect_answer_is_sound_witness :
  Forall (λ '(tip, pip, mcp),
            _finger_closed fist_hand tip pip mcp = Some true ∧
            _finger_extended fist_hand tip pip mcp = Some false)
    non_thumb_fingers.
Proof. apply (detect_answer_is_sound fist_hand GESTURE_FIST). reflexivity. Defined.

(** X2. A hand whose index, middle or ring finger is in the dead zone
    (neither extended nor closed) classifies as IDLE, whatever the other
    fingers do. *)
Theorem dead_zone_finger_gives_idle (lm : Landmarks) (tip pip mcp : nat) :
  (21 <= length lm)%nat →
  (tip, pip, mcp) ∈ [(8, 6, 5); (12, 10, 9); (16, 14, 13)]%nat →
  _finger_extended lm tip pip mcp = Some false →
  _finger_closed lm tip pip mcp = Some false →
  _detect lm = Some GESTURE_IDLE.
Proof.
  intros Hlen Hin He Hc.
  destruct (_detect_is_Some lm Hlen) as [g Hdet]. rewrite Hdet.
  destruct (_detect_inv lm g Hdet)
    as (thumb & index & middle & ring & pinky & ic & mc & rc & pc
        & Ht & Hi & Hm & Hr & Hp & Hic & Hmc & Hrc & Hpc & ->).
  f_equal.
  repeat (apply elem_of_cons in Hin as [[= -> -> ->] | Hin]);
    [| | | apply elem_of_nil in Hin; contradiction].
  - rewrite He in Hi. rewrite Hc in Hic. injection Hi as <-. injection Hic as <-.
    destruct thumb, middle, ring, pinky, mc, rc, pc; reflexivity.
  - rewrite He in Hm. rewrite Hc in Hmc. injection Hm as <-. injection Hmc as <-.
    destruct thumb, index, ring, pinky, ic, rc, pc; reflexivity.
  - rewrite He in Hr. rewrite Hc in Hrc. injection Hr as <-. injection Hrc as <-.
    destruct thumb, index, middle, pinky, ic, mc, pc; reflexivity.
Qed.

Lemma dead_zone_finger_gives_idle_witness :
  _detect half_curled_hand = Some GESTURE_IDLE.
Proof.
  apply (dead_zone_finger_gives_idle half_curled_hand 12 10 9).
  - simpl. lia.
  - apply list_elem_of_further, list_elem_of_here.
  - reflexivity.
  - reflexivity.
Defined.

Lemma _y_insert_ne (lm : Landmarks) (i j : nat) (p : Landmark) :
  i ≠ j → _y (<[i := p]> lm) j = _y lm j.
Proof.
  intros Hne. unfold _y, Landmarks, Landmark in *.
  rewrite list_lookup_insert_ne by exact Hne. reflexivity.
Qed.

Lemma _x_insert_ne (lm : Landmarks) (i j : nat) (p : Landmark) :
  i ≠ j → _x (<[i := p]> lm) j = _x lm j.
Proof.
  intros Hne. unfold _x, Landmarks, Landmark in *.
  rewrite list_lookup_insert_ne by exact Hne. reflexivity.
Qed.

Lemma _y_with_depth (f : Q → Q) (lm : Landmarks) (i : nat) :
  _y (with_depth f lm) i = _y lm i.
Proof.
  unfold _y, with_depth, Landmarks, Landmark in *. rewrite list_lookup_fmap.
  destruct (lm !! i) as [[[x y] z]|]; reflexivity.
Qed.

Lemma _x_with_depth (f : Q → Q) (lm : Landmarks) (i : nat) :
  _x (with_depth f lm) i = _x lm i.
Proof.
  unfold _x, with_depth, Landmarks, Landmark in *. rewrite list_lookup_fmap.
  destruct (lm !! i) as [[[x y] z]|]; reflexivity.
Qed.

(** X3. The classifier never reads the thumb CMC nor the four DIP joints
    (landmarks 1, 7, 11, 15, 19), nor any depth: overwriting one of these
    landmarks, or changing every [z], leaves its answer as it was. *)
Theorem detect_ignores_dip_and_depth (lm : Landmarks) :
  (∀ (i : nat) (p : Landmark),
     i ∈ unread_landmarks → _detect (<[i := p]> lm) = _detect lm)
  ∧ (∀ f : Q → Q, _detect (with_depth f lm) = _detect lm).
Proof.
  split.
  - intros i p Hin. unfold unread_landmarks in Hin.
    unfold _detect, _thumb_extended, _finger_extended, _finger_closed.
    repeat (apply elem_of_cons in Hin as [-> | Hin]);
      [| | | | | apply elem_of_nil in Hin; contradiction];
      rewrite !_y_insert_ne, !_x_insert_ne by lia; reflexivity.
  - intros f. unfold _detect, _thumb_extended, _finger_extended, _finger_closed.
    rewrite !_y_with_depth, !_x_with_depth. reflexivity.
Qed.

Lemma detect_ignores_dip_and_depth_witness :
  _detect (<[7%nat := pt 0 0]> open_hand) = _detect open_hand.
Proof.
  apply (proj1 (detect_ignores_dip_and_depth open_hand) 7%nat (pt 0 0)).
  unfold unread_landmarks. apply list_elem_of_further, list_elem_of_here.
Defined.

Lemma _y_mirror_x (a : Q) (lm : Landmarks) (i : nat) :
  _y (mirror_x a lm) i = _y lm i.
Proof.
  unfold _y, mirror_x, Landmarks, Landmark in *. rewrite list_lookup_fmap.
  destruct (lm !! i) as [[[x y] z]|]; reflexivity.
Qed.

Lemma _x_mirror_x (a : Q) (lm : Landmarks) (i : nat) :
  _x (mirror_x a lm) i = (λ x, (a - x)%Q) <$> _x lm i.
Proof.
  unfold _x, mirror_x, Landmarks, Landmark in *. rewrite list_lookup_fmap.
  destruct (lm !! i) as [[[x y] z]|]; reflexivity.
Qed.

Lemma _finger_extended_mirror_x (a : Q) (lm : Landmarks) (tip pip mcp : nat) :
  _finger_extended (mirror_x a lm) tip pip mcp = _finger_extended lm tip pip mcp.
Proof. unfold _finger_extended. rewrite !_y_mirror_x. reflexivity. Qed.

Lemma _finger_closed_mirror_x (a : Q) (lm : Landmarks) (tip pip mcp : nat) :
  _finger_closed (mirror_x a lm) tip pip mcp = _finger_closed lm tip pip mcp.
Proof. unfold _finger_closed. rewrite !_y_mirror_x. reflexivity. Qed.

(** The thumb test picks its inequality by the side the hand is on, so a
    mirrored hand gets the same answer, unless wrist and middle MCP have the
    same [x]. *)
Lemma _thumb_extended_mirror_x (a : Q) (lm : Landmarks) (wrist_x middle_mcp_x : Q) :
  _x lm 0 = Some wrist_x → _x lm 9 = Some middle_mcp_x →
  ¬ (wrist_x == middle_mcp_x)%Q →
  _thumb_extended (mirror_x a lm) = _thumb_extended lm.
Proof.
  intros Hw Hm Hne. unfold _thumb_extended.
  rewrite !_x_mirror_x, !_y_mirror_x, Hw, Hm.
  destruct (_x lm 4) as [tip_x|]; [|reflexivity].
  destruct (_x lm 3) as [ip_x|]; [|reflexivity].
  destruct (_x lm 2) as [mcp_x|]; [|reflexivity]. simpl.
  destruct (_y lm 4) as [tip_y|]; [|reflexivity].
  destruct (_y lm 2) as [mcp_y|]; [|reflexivity]. simpl.
  do 2 f_equal.
  destruct (Qgeb (wrist_x - middle_mcp_x) 0) eqn:Hside;
  destruct (Qgeb (a - wrist_x - (a - middle_mcp_x)) 0) eqn:Hside'.
  - exfalso. apply Qgeb_le in Hside, Hside'. apply Hne. lra.
  - unfold Qgtb. apply Qltb_proper; [reflexivity | ring].
  - unfold Qgtb. apply Qltb_proper; [reflexivity | ring].
  - exfalso.
    apply not_true_iff_false in Hside, Hside'. rewrite Qgeb_le in Hside, Hside'.
    apply Qnot_le_lt in Hside, Hside'. lra.
Qed.

(** X4. Mirroring a hand left to right (reflecting every [x] about any
    vertical line) does not change its classification, provided wrist and
    middle MCP do not share the same [x]. *)
Theorem detect_mirror_invariant (a : Q) (lm : Landmarks) (wrist_x middle_mcp_x : Q) :
  _x lm 0 = Some wrist_x → _x lm 9 = Some middle_mcp_x →
  ¬ (wrist_x == middle_mcp_x)%Q →
  _detect (mirror_x a lm) = _detect lm.
Proof.
  intros Hw Hm Hne. unfold _detect.
  rewrite (_thumb_extended_mirror_x a lm _ _ Hw Hm Hne).
  rewrite !_finger_extended_mirror_x, !_finger_closed_mirror_x. reflexivity.
Qed.

Lemma detect_mirror_invariant_witness :
  _detect (mirror_x 1 tilted_open_hand) = _detect tilted_open_hand.
Proof.
  apply (detect_mirror_invariant 1 tilted_open_hand 0.55 0.5).
  - reflexivity.
  - reflexivity.
  - vm_compute. discriminate.
Defined.

(** The proviso of X4 is needed: the sample open hand has wrist and middle
    MCP on one vertical line, and its mirror image loses the thumb. *)
Lemma mirror_of_centred_hand_differs :
  _detect open_hand = Some GESTURE_OPEN_PALM ∧
  _detect (mirror_x 1 open_hand) = Some GESTURE_THREE_FINGERS.
Proof. split; reflexivity. Qed.

(** ** More on the stability lock *)

(** X5. A hand frame of another label restarts the count: after a call
    classified [L'], up to five calls classified [L ≠ L'] all return IDLE,
    from every state of the controller. *)
Theorem other_label_restarts_count (self : t) (L L' : Gesture) (c0 : Call) (cs : list Call) :
  classifies L' c0 →
  L ≠ L' →
  Forall (classifies L) cs →
  (length cs < GESTURE_STABILITY_FRAMES)%nat →
  ∃ self1 g0 self2,
    update_call self c0 = Some (self1, g0) ∧
    run_calls self1 cs = Some (self2, repeat GESTURE_IDLE (length cs)).
Proof.
  intros Hc0 Hne Hcs Hlen.
  pose proof (update_call_classified self c0 L' Hc0) as Hstep.
  match type of Hstep with _ = Some (?s, ?g) => set (self1 := s) in *; set (g0 := g) in * end.
  assert (Hs : streak self1 L = 0%nat).
  { unfold streak. simpl. rewrite bool_decide_eq_false_2 by exact Hne. reflexivity. }
  destruct (run_calls_below_threshold L cs self1 Hcs) as (self2 & Hrun & _).
  { rewrite Hs. simpl. exact Hlen. }
  exists self1, g0, self2. split; [exact Hstep | exact Hrun].
Qed.

Lemma other_label_restarts_count_witness :
  ∃ self1 g0 self2,
    update_call five_fists (call_at open_hand 1700000000) = Some (self1, g0) ∧
    run_calls self1 (repeat (call_at fist_hand 1700000001) 5) =
      Some (self2, repeat GESTURE_IDLE 5).
Proof.
  apply (other_label_restarts_count five_fists GESTURE_FIST GESTURE_OPEN_PALM
           (call_at open_hand 1700000000) (repeat (call_at fist_hand 1700000001) 5)).
  - repeat constructor.
  - discriminate.
  - repeat constructor.
  - vm_compute. lia.
Defined.

Lemma same_fsm_refl (s : t) : same_fsm s s.
Proof. repeat split. Qed.

Lemma confirmed_same_fsm (s1 s2 : t) (raw : Gesture) (clock : Q) :
  same_fsm s1 s2 → confirmed s1 raw clock = confirmed s2 raw clock.
Proof.
  intros (Hh & Hn & Ha & Hl). unfold confirmed. rewrite Hh, Hn, Ha, Hl. reflexivity.
Qed.

(** One call on two controllers that differ at most in the frame counter. *)
Lemma update_call_same_fsm (s1 s2 : t) (c : Call) :
  same_fsm s1 s2 →
  ∃ s1' s2' g, update_call s1 c = Some (s1', g) ∧ update_call s2 c = Some (s2', g) ∧
    same_fsm s1' s2'.
Proof.
  intros Hsame. pose proof Hsame as (Hh & Hn & Ha & Hl). unfold update_call.
  destruct (Nat.lt_ge_cases (length (call_landmarks c)) 21) as [Hlt | Hge].
  - rewrite !(update_no_hand _ _ _ _ _ _ Hlt). eexists _, _, _.
    split; [reflexivity|]. split; [reflexivity|]. repeat split; assumption.
  - destruct (_detect_is_Some _ Hge) as [raw Hraw].
    rewrite !(update_hand _ _ _ _ _ _ _ Hge Hraw).
    rewrite <- (confirmed_same_fsm s1 s2 raw (call_clock c) Hsame).
    eexists _, _, _. split; [reflexivity|]. split; [reflexivity|].
    repeat split; simpl; rewrite ?Hh, ?Hn, ?Ha, ?Hl; reflexivity.
Qed.

Lemma switches_drop_no_hand (cs : list Call) :
  ∀ s1 s2 : t, same_fsm s1 s2 →
    ∃ s1' s2' sw,
      switches s1 cs = Some (s1', sw) ∧
      switches s2 (filter sees_hand cs) = Some (s2', sw) ∧
      same_fsm s1' s2'.
Proof.
  induction cs as [|c cs IH]; intros s1 s2 Hsame.
  - exists s1, s2, []. repeat split; apply Hsame.
  - destruct (decide (sees_hand c)) as [Hhand | Hno].
    + rewrite filter_cons_True by exact Hhand.
      destruct (update_call_same_fsm s1 s2 c Hsame) as (s1a & s2a & g & H1 & H2 & Hsame').
      destruct (IH s1a s2a Hsame') as (s1' & s2' & sw & Hsw1 & Hsw2 & Hfin).
      simpl. rewrite H1, H2. simpl. rewrite Hsw1, Hsw2. simpl. eauto 10.
    + rewrite filter_cons_False by exact Hno.
      assert (Hlt : (length (call_landmarks c) < 21)%nat) by (unfold sees_hand in Hno; lia).
      assert (Hsame' : same_fsm
                {| _gesture_hold := _gesture_hold s1;
                   _hold_frames := _hold_frames s1;
                   _active_gesture := _active_gesture s1;
                   _last_switch := _last_switch s1;
                   _frame_count := S (_frame_count s1) |} s2) by exact Hsame.
      destruct (IH _ s2 Hsame') as (s1' & s2' & sw & Hsw1 & Hsw2 & Hfin).
      simpl. unfold update_call. rewrite (update_no_hand _ _ _ _ _ _ Hlt). simpl.
      rewrite Hsw1. simpl. eauto 10.
Qed.

(** X6. Dropouts are transparent: removing from a sequence of calls those
    that carry no hand (fewer than 21 landmarks) changes neither the
    confirmed switches, with their labels and clock readings, nor the final
    controller apart from its frame counter. *)
Theorem dropouts_are_transparent (self : t) (cs : list Call) :
  ∃ s1 s2 sw,
    switches self cs = Some (s1, sw) ∧
    switches self (filter sees_hand cs) = Some (s2, sw) ∧
    same_fsm s1 s2.
Proof. apply switches_drop_no_hand, same_fsm_refl. Qed.

(** A call either carries no hand, and only the frame counter moves, or it
    carries one with some raw label. *)
Lemma update_call_hand_or_not (self : t) (c : Call) :
  (¬ sees_hand c ∧
   update_call self c =
     Some ({| _gesture_hold := _gesture_hold self;
              _hold_frames := _hold_frames self;
              _active_gesture := _active_gesture self;
              _last_switch := _last_switch self;
              _frame_count := S (_frame_count self) |}, GESTURE_IDLE))
  ∨ (sees_hand c ∧ ∃ raw, classifies raw c).
Proof.
  destruct (decide (sees_hand c)) as [Hhand | Hno].
  - right. split; [exact Hhand|].
    destruct (_detect_is_Some _ Hhand) as [raw Hraw]. exists raw. split; assumption.
  - left. split; [exact Hno|]. unfold update_call. apply update_no_hand.
    unfold sees_hand in Hno. lia.
Qed.

Lemma counted_step (self self' : t) (hist : list Call) (c : Call) (g : Gesture) :
  counted self hist →
  update_call self c = Some (self', g) →
  counted self' (hist ++ [c]) ∧
  (g ≠ GESTURE_IDLE →
     _gesture_hold self' = g ∧ (GESTURE_STABILITY_FRAMES <= _hold_frames self')%nat).
Proof.
  intros (pre & recent & Hfil & Hlen & Hall) Hstep.
  destruct (update_call_hand_or_not self c) as [[Hno Heq] | [Hhand [raw Hraw]]].
  - rewrite Heq in Hstep. injection Hstep as <- <-.
    split; [|intros Hg; contradiction].
    exists pre, recent. rewrite filter_app, filter_cons_False, filter_nil, app_nil_r by exact Hno.
    repeat split; assumption.
  - rewrite (update_call_classified self c raw Hraw) in Hstep. injection Hstep as <- <-.
    split.
    + unfold counted. rewrite filter_app, filter_cons_True, filter_nil, Hfil by exact Hhand.
      simpl. unfold streak. destruct (bool_decide (raw = _gesture_hold self)) eqn:Hheld.
      * apply bool_decide_eq_true in Hheld. exists pre, (recent ++ [c]).
        rewrite app_assoc, length_app, Hlen. simpl.
        split; [reflexivity|]. split; [lia|].
        apply Forall_app. split; [rewrite Hheld; exact Hall | repeat constructor; apply Hraw].
      * exists (pre ++ recent), [c]. simpl.
        split; [reflexivity|]. split; [reflexivity|]. repeat constructor; apply Hraw.
    + destruct (confirmed self raw (call_clock c)) eqn:Hconf; [|intros Hg; contradiction].
      intros _. simpl. split; [reflexivity|].
      apply confirmed_spec in Hconf as (_ & Hge & _). exact Hge.
Qed.

Lemma counted_run (cs : list Call) :
  ∀ (self self' : t) (hist : list Call) (gs : list Gesture),
    counted self hist →
    run_calls self cs = Some (self', gs) →
    ∀ (k : nat) (g : Gesture),
      gs !! k = Some g → g ≠ GESTURE_IDLE →
      ∃ pre recent : list Call,
        filter sees_hand (hist ++ take (S k) cs) = pre ++ recent ∧
        length recent = GESTURE_STABILITY_FRAMES ∧
        Forall (classifies g) recent.
Proof.
  induction cs as [|c cs IH]; intros self self' hist gs Hcnt Hrun k g Hk Hg.
  - simpl in Hrun. injection Hrun as <- <-. discriminate.
  - apply run_calls_cons in Hrun as (self1 & g1 & gs' & Hstep & Hrun & ->).
    destruct (counted_step _ _ _ _ _ Hcnt Hstep) as [Hcnt1 Hemit].
    destruct k as [|k]; simpl in Hk.
    + injection Hk as ->. destruct (Hemit Hg) as [Hheld Hge].
      destruct Hcnt1 as (pre & recent & Hfil & Hlen & Hall).
      rewrite Hheld in Hall. simpl. rewrite take_0.
      exists (pre ++ take (length recent - GESTURE_STABILITY_FRAMES) recent),
             (drop (length recent - GESTURE_STABILITY_FRAMES) recent).
      split; [rewrite <- app_assoc, take_drop; exact Hfil|]. split.
      * rewrite length_drop. lia.
      * apply Forall_drop. exact Hall.
    + destruct (IH _ _ _ _ Hcnt1 Hrun k g Hk Hg) as (pre & recent & Hfil & Hlen & Hall).
      exists pre, recent. split; [|split; assumption].
      rewrite <- Hfil. f_equal. rewrite <- app_assoc. reflexivity.
Qed.

(** X7. No label is confirmed on flicker: in a run from the initial state,
    whenever a call returns a label other than IDLE, the six most recent
    calls that carried a hand (that call included, dropouts skipped) were
    all classified as that label. *)
Theorem emitted_label_was_held_six_frames (cs : list Call) (self' : t)
    (gs : list Gesture) (k : nat) (g : Gesture) :
  run_calls __init__ cs = Some (self', gs) →
  gs !! k = Some g →
  g ≠ GESTURE_IDLE →
  ∃ pre recent : list Call,
    filter sees_hand (take (S k) cs) = pre ++ recent ∧
    length recent = GESTURE_STABILITY_FRAMES ∧
    Forall (classifies g) recent.
Proof.
  intros Hrun Hk Hg.
  assert (Hcnt : counted __init__ []).
  { exists [], []. repeat split. constructor. }
  exact (counted_run cs _ _ [] _ Hcnt Hrun k g Hk Hg).
Qed.

Lemma emitted_label_was_held_six_frames_witness :
  ∃ pre recent : list Call,
    filter sees_hand
      (take 7 (call_at fist_hand 1700000000 :: call_at [] 1700000001
                 :: repeat (call_at fist_hand 1700000002) 5
                 ++ [call_at open_hand 1700000003])) = pre ++ recent ∧
    length recent = GESTURE_STABILITY_FRAMES ∧
    Forall (classifies GESTURE_FIST) recent.
Proof.
  eapply (emitted_label_was_held_six_frames
            (call_at fist_hand 1700000000 :: call_at [] 1700000001
               :: repeat (call_at fist_hand 1700000002) 5
               ++ [call_at open_hand 1700000003]) _ _ 6%nat GESTURE_FIST).
  - vm_compute. reflexivity.
  - reflexivity.
  - discriminate.
Defined.

Lemma switches_cons (self self2 : t) (c : Call) (cs : list Call) (sw : list (Q * Gesture)) :
  switches self (c :: cs) = Some (self2, sw) →
  ∃ self1 g sw', update_call self c = Some (self1, g) ∧
    switches self1 cs = Some (self2, sw') ∧
    sw = if bool_decide (g = GESTURE_IDLE) then sw' else (call_clock c, g) :: sw'.
Proof.
  simpl. destruct (update_call self c) as [[self1 g]|]; simpl; [|discriminate].
  destruct (switches self1 cs) as [[self2' sw']|] eqn:Hsw; simpl; [|discriminate].
  intros [= <- <-]. eexists _, _, _. repeat split. exact Hsw.
Qed.

(** X8. The controller's active label and last switch time are those of the
    most recent confirmed switch of the run, and the ones it started with
    when the run confirmed nothing. *)
Theorem active_label_is_last_switch (cs : list Call) :
  ∀ (self self' : t) (sw : list (Q * Gesture)),
    switches self cs = Some (self', sw) →
    match last sw with
    | Some (clock, g) => _active_gesture self' = Some g ∧ _last_switch self' = clock
    | None => _active_gesture self' = _active_gesture self ∧
              _last_switch self' = _last_switch self
    end.
Proof.
  induction cs as [|c cs IH]; intros self self' sw Hsw.
  - simpl in Hsw. injection Hsw as <- <-. simpl. auto.
  - apply switches_cons in Hsw as (self1 & g & sw' & Hstep & Hsw & ->).
    specialize (IH _ _ _ Hsw).
    destruct (update_call_cases self c) as (s & g0 & Hstep' & Hcases).
    rewrite Hstep in Hstep'. injection Hstep' as <- <-.
    destruct Hcases as [(-> & Hact & Hlast) | (Hg & Hact & Hlast & _)].
    + rewrite bool_decide_eq_true_2 by reflexivity.
      destruct (last sw') as [[clock g']|]; [exact IH|].
      rewrite <- Hact, <- Hlast. exact IH.
    + rewrite bool_decide_eq_false_2 by exact Hg. rewrite last_cons.
      destruct (last sw') as [[clock g']|]; [exact IH|].
      rewrite <- Hact, <- Hlast. exact IH.
Qed.

Lemma active_label_is_last_switch_witness :
  _active_gesture fist_then_five_palms = Some GESTURE_FIST ∧
  _last_switch fist_then_five_palms = 1700000000%Q.
Proof.
  apply (active_label_is_last_switch
           (call_at fist_hand 1700000000 :: repeat (call_at open_hand 1700000000.2) 5)
           five_fists fist_then_five_palms [(1700000000%Q, GESTURE_FIST)]).
  reflexivity.
Defined.

(** X9. The controller never confirms the same label twice in a row: in the
    confirmed switches of any run, each label differs from the one before,
    and the first differs from the label that was active at the start. *)
Theorem no_label_confirmed_twice_in_a_row (cs : list Call) :
  ∀ (self self' : t) (sw : list (Q * Gesture)),
    switches self cs = Some (self', sw) →
    alternating (_active_gesture self) (snd <$> sw).
Proof.
  induction cs as [|c cs IH]; intros self self' sw Hsw.
  - simpl in Hsw. injection Hsw as <- <-. exact I.
  - apply switches_cons in Hsw as (self1 & g & sw' & Hstep & Hsw & ->).
    specialize (IH _ _ _ Hsw).
    destruct (update_call_cases self c) as (s & g0 & Hstep' & Hcases).
    rewrite Hstep in Hstep'. injection Hstep' as <- <-.
    destruct Hcases as [(-> & Hact & _) | (Hg & Hact & _ & _ & Hnew)].
    + rewrite bool_decide_eq_true_2 by reflexivity. rewrite <- Hact. exact IH.
    + rewrite bool_decide_eq_false_2 by exact Hg. simpl.
      split; [exact Hnew|]. rewrite <- Hact. exact IH.
Qed.

Lemma no_label_confirmed_twice_in_a_row_witness :
  alternating None [GESTURE_FIST; GESTURE_OPEN_PALM].
Proof.
  apply (no_label_confirmed_twice_in_a_row
           (call_at fist_hand 1700000000 :: repeat (call_at open_hand 1700000001) 6)
           five_fists
           {| _gesture_hold := GESTURE_OPEN_PALM;
              _hold_frames := 6;
              _active_gesture := Some GESTURE_OPEN_PALM;
              _last_switch := 1700000001;
              _frame_count := 12 |}
           [(1700000000%Q, GESTURE_FIST); (1700000001%Q, GESTURE_OPEN_PALM)]).
  reflexivity.
Defined.

(** X10. [update] answers every call and counts it: a run of calls, with or
    without hands, returns one label per call and advances the frame counter
    by the number of calls. *)
Theorem every_call_is_answered_and_counted (cs : list Call) :
  ∀ self : t,
    ∃ self' gs,
      run_calls self cs = Some (self', gs) ∧
      length gs = length cs ∧
      _frame_count self' = (_frame_count self + length cs)%nat.
Proof.
  induction cs as [|c cs IH]; intros self.
  - exists self, []. simpl. repeat split. lia.
  - assert (Hstep : ∃ self1 g, update_call self c = Some (self1, g) ∧
                      _frame_count self1 = S (_frame_count self)).
    { destruct (update_call_hand_or_not self c) as [[_ Heq] | [_ [raw Hraw]]].
      - rewrite Heq. eauto.
      - rewrite (update_call_classified self c raw Hraw). eauto. }
    destruct Hstep as (self1 & g & Hstep & Hfc).
    destruct (IH self1) as (self' & gs & Hrun & Hlen & Hcount).
    exists self', (g :: gs). simpl. rewrite Hstep. simpl. rewrite Hrun. simpl.
    repeat split; [lia | lia].
Qed.

(** X11. [set_active_gesture None] re-arms the controller: whatever label
    was active, once it is reset a stabilised non-IDLE label is confirmed
    as soon as the cooldown allows, the previously active label included. *)
Theorem resetting_active_label_rearms (self : t) (L : Gesture) (c : Call) :
  classifies L c →
  L ≠ GESTURE_IDLE →
  (GESTURE_STABILITY_FRAMES <= S (streak self L))%nat →
  (SWITCH_COOLDOWN <= call_clock c - _last_switch self)%Q →
  ∃ self', update_call (set_active_gesture self None) c = Some (self', L) ∧
    _active_gesture self' = Some L ∧
    _last_switch self' = call_clock c.
Proof.
  intros Hc HL Hstab Hcool.
  assert (Hyes : confirmed (set_active_gesture self None) L (call_clock c) = true).
  { apply confirmed_spec. repeat split; [exact HL | exact Hstab | discriminate | exact Hcool]. }
  rewrite (update_call_classified _ c L Hc), Hyes.
  eexists. split; [reflexivity|]. simpl. auto.
Qed.

Lemma resetting_active_label_rearms_witness :
  ∃ self', update_call
             (set_active_gesture
                {| _gesture_hold := GESTURE_FIST;
                   _hold_frames := 40;
                   _active_gesture := Some GESTURE_FIST;
                   _last_switch := 1700000000;
                   _frame_count := 40 |} None)
             (call_at fist_hand 1700000001) = Some (self', GESTURE_FIST) ∧
    _active_gesture self' = Some GESTURE_FIST ∧
    _last_switch self' = 1700000001%Q.
Proof.
  apply (resetting_active_label_rearms
           {| _gesture_hold := GESTURE_FIST;
              _hold_frames := 40;
              _active_gesture := Some GESTURE_FIST;
              _last_switch := 1700000000;
              _frame_count := 40 |} GESTURE_FIST (call_at fist_hand 1700000001)).
  - repeat constructor.
  - discriminate.
  - vm_compute. lia.
  - vm_compute. discriminate.
Defined.

(** ** More on the scene manager and the entities *)

(** X12. [clear] empties the scene and re-arms [spawn]: in a scene that
    satisfies the scene invariant, after [clear] no entity is left, and the
    next [spawn] constructs one and returns true whatever its label, the
    label that owned the scene before included. *)
Theorem clear_then_spawn_constructs (self : ObjectManager.t) (σ : Store)
    (label : option Gesture) (cls : Entity.Class) :
  scene_inv (self, σ) →
  fst (ObjectManager.clear self σ) = ObjectManager.__init__ ∧
  objects (snd (ObjectManager.clear self σ)) = ∅ ∧
  ∃ l : loc,
    ObjectManager.spawn (fst (ObjectManager.clear self σ))
      (snd (ObjectManager.clear self σ)) label cls =
      ({| ObjectManager.current_object := Some l;
          ObjectManager.current_gesture := label |},
       {| objects := {[ l := Entity.__init__ cls ]}; drawn := drawn σ |},
       true).
Proof.
  intros [Hdom _]. simpl in Hdom.
  assert (Hempty : ObjectManager.release (ObjectManager.current_object self) (objects σ) = ∅).
  { apply dom_empty_iff_L.
    destruct (ObjectManager.current_object self) as [l0|]; simpl.
    - rewrite dom_delete_L, Hdom. apply difference_diag_L.
    - exact Hdom. }
  unfold ObjectManager.clear. simpl. rewrite Hempty.
  split; [reflexivity|]. split; [reflexivity|].
  eexists. rewrite spawn_replace by (right; reflexivity). simpl.
  rewrite insert_empty. reflexivity.
Qed.

Lemma clear_then_spawn_constructs_witness :
  fst (ObjectManager.clear flower_manager flower_store) = ObjectManager.__init__ ∧
  objects (snd (ObjectManager.clear flower_manager flower_store)) = ∅ ∧
  ∃ l : loc,
    ObjectManager.spawn (fst (ObjectManager.clear flower_manager flower_store))
      (snd (ObjectManager.clear flower_manager flower_store))
      (Some GESTURE_PEACE) Entity.Flower =
      ({| ObjectManager.current_object := Some l;
          ObjectManager.current_gesture := Some GESTURE_PEACE |},
       {| objects := {[ l := Entity.__init__ Entity.Flower ]}; drawn := [] |},
       true).
Proof.
  apply (clear_then_spawn_constructs flower_manager flower_store
           (Some GESTURE_PEACE) Entity.Flower).
  split; simpl.
  - apply dom_singleton_L.
  - split; discriminate.
Defined.

(** X13. An entity that reports itself dead stays dead: when [update]
    returns false, the entity is a flower or an energy orb aged 22 seconds or
    more, and every later [update] by a non-negative [dt] returns false
    again.  Galaxies and nebulas never report themselves dead. *)
Theorem expired_entity_stays_expired (e : Entity.t) (dt dt' : Q) :
  snd (Entity.update e dt) = false →
  (0 <= dt')%Q →
  (Entity.class e = Entity.Flower ∨ Entity.class e = Entity.EnergyOrb) ∧
  (22 <= Entity.age e + dt)%Q ∧
  snd (Entity.update (fst (Entity.update e dt)) dt') = false.
Proof.
  unfold Entity.update. intros Hdead Hdt'.
  destruct (Entity.class e) eqn:Hc; simpl in *; try discriminate.
  - apply Qltb_ge in Hdead. split; [right; reflexivity|]. split; [lra|].
    apply Qltb_ge. lra.
  - apply Qltb_ge in Hdead. split; [left; reflexivity|]. split; [lra|].
    apply Qltb_ge. lra.
Qed.

Lemma expired_entity_stays_expired_witness :
  (Entity.class old_flower = Entity.Flower ∨ Entity.class old_flower = Entity.EnergyOrb) ∧
  (22 <= Entity.age old_flower + 0.016)%Q ∧
  snd (Entity.update (fst (Entity.update old_flower 0.016)) 0.016) = false.
Proof.
  apply (expired_entity_stays_expired old_flower 0.016 0.016).
  - reflexivity.
  - vm_compute. discriminate.
Defined.

(** ** The frame loop *)

Lemma handle_gestures_cases (app : main.CinematicUniverse3D) (w h : Z) (dt : Q)
    (lm : Landmarks) (clock : Q) :
  ∃ gc g, update (main.gesture_controller app) lm w h dt clock = Some (gc, g) ∧
    ((g = GESTURE_IDLE ∧
      main.handle_gestures app w h dt lm clock =
        Some {| main.object_manager := main.object_manager app;
                main.gesture_controller := gc;
                main.last_time := main.last_time app;
                main.store := main.store app |})
     ∨ (g ≠ GESTURE_IDLE ∧ ∃ cls, main.gesture_map g = Some cls ∧
        main.handle_gestures app w h dt lm clock =
          Some {| main.object_manager :=
                    fst (fst (ObjectManager.spawn (main.object_manager app)
                                (main.store app) (Some g) cls));
                  main.gesture_controller := gc;
                  main.last_time := main.last_time app;
                  main.store :=
                    snd (fst (ObjectManager.spawn (main.object_manager app)
                                (main.store app) (Some g) cls)) |})).
Proof.
  destruct (update_is_Some (main.gesture_controller app) lm w h dt clock) as (gc & g & Hup).
  exists gc, g. split; [exact Hup|]. unfold main.handle_gestures. rewrite Hup. simpl.
  destruct (decide (g = GESTURE_IDLE)) as [-> | Hg].
  - left. split; reflexivity.
  - right. split; [exact Hg|]. rewrite bool_decide_eq_false_2 by exact Hg.
    destruct g; try contradiction; simpl; eexists; (split; [reflexivity|]);
      match goal with |- context [ObjectManager.spawn ?a ?b ?c ?d] =>
        destruct (ObjectManager.spawn a b c d) as [[om σ] r] end; reflexivity.
Qed.

Lemma handle_gestures_shows (app : main.CinematicUniverse3D) (w h : Z) (dt : Q)
    (lm : Landmarks) (clock : Q) :
  shows app → ∃ app', main.handle_gestures app w h dt lm clock = Some app' ∧ shows app'.
Proof.
  intros Hshows.
  destruct (handle_gestures_cases app w h dt lm clock)
    as (gc & g & _ & [(_ & ->) | (Hg & cls & Hmap & ->)]).
  - eexists. split; [reflexivity|]. exact Hshows.
  - eexists. split; [reflexivity|]. unfold shows in *. simpl.
    destruct (spawn_cases (main.object_manager app) (main.store app) (Some g) cls)
      as [(_ & _ & ->) | (_ & ->)]; simpl; [exact Hshows|].
    exists (Entity.__init__ cls). split; [|exact Hmap].
    apply spawn_fresh_entity. intros l0 Hl0. rewrite Hl0 in Hshows.
    destruct (ObjectManager.current_gesture (main.object_manager app)); [|contradiction].
    destruct Hshows as (e & He & _). eauto.
Qed.

Lemma step_shows (app : main.CinematicUniverse3D) (f : main.Frame) :
  shows app → ∃ app', main.step app f = Some app' ∧ shows app'.
Proof.
  intros Hshows. unfold main.step.
  match goal with
  | |- context [main.handle_gestures ?a _ _ _ _ _] => set (app0 := a)
  end.
  assert (Hshows0 : shows app0) by exact Hshows.
  assert (H1 : ∃ app1,
             match main.frame_landmarks f with
             | Some landmarks =>
                 main.handle_gestures app0 (main.frame_width f) (main.frame_height f)
                   (main.frame_now f - main.last_time app) landmarks (main.frame_clock f)
             | None => Some app0
             end = Some app1 ∧ shows app1).
  { destruct (main.frame_landmarks f) as [lm|]; [apply handle_gestures_shows; exact Hshows0 | eauto]. }
  destruct H1 as (app1 & -> & Hshows1). simpl.
  unfold ObjectManager.update, ObjectManager.draw. unfold shows in Hshows1.
  destruct (ObjectManager.current_object (main.object_manager app1)) as [l|] eqn:Hcur;
    simpl; rewrite ?Hcur; (eexists; split; [reflexivity|]); unfold shows; simpl;
    rewrite Hcur;
    destruct (ObjectManager.current_gesture (main.object_manager app1)) as [g|];
    try exact Hshows1.
  destruct Hshows1 as (e & He & Hmap).
  exists (fst (Entity.update e (main.frame_now f - main.last_time app))).
  rewrite lookup_alter_eq, He. split; [reflexivity|].
  rewrite (proj2 (Entity_update_age e _)). exact Hmap.
Qed.

(** X14. What is on screen always belongs to the owning gesture: after any
    number of passes of the main loop from the initial state, either the
    scene has no owner and no entity, or the slot refers to a live entity
    whose class is the one [gesture_map] assigns to the owning gesture. *)
Theorem screen_shows_the_owning_gesture (start : Q) (fs : list main.Frame) :
  ∃ app, main.run (main.__init__ start) fs = Some app ∧ shows app.
Proof.
  assert (Hrun : ∀ fs app0, shows app0 → ∃ app, main.run app0 fs = Some app ∧ shows app).
  { clear fs. induction fs as [|f fs IH]; intros app0 Hs; simpl; [eauto|].
    destruct (step_shows app0 f Hs) as (app1 & -> & Hs1). simpl. apply IH, Hs1. }
  apply Hrun. exact I.
Qed.

Lemma step_quiet (L : Gesture) (app : main.CinematicUniverse3D) (f : main.Frame) :
  _active_gesture (main.gesture_controller app) = Some L →
  ObjectManager.current_object (main.object_manager app) = None →
  quiet_for L f →
  ∃ app', main.step app f = Some app' ∧
    _active_gesture (main.gesture_controller app') = Some L ∧
    ObjectManager.current_object (main.object_manager app') = None.
Proof.
  intros Hact Hobj Hq. unfold main.step, quiet_for in *.
  match goal with
  | |- context [main.handle_gestures ?a _ _ _ _ _] => set (app0 := a)
  end.
  assert (H1 : ∃ app1,
             match main.frame_landmarks f with
             | Some landmarks =>
                 main.handle_gestures app0 (main.frame_width f) (main.frame_height f)
                   (main.frame_now f - main.last_time app) landmarks (main.frame_clock f)
             | None => Some app0
             end = Some app1 ∧
             _active_gesture (main.gesture_controller app1) = Some L ∧
             ObjectManager.current_object (main.object_manager app1) = None).
  { destruct (main.frame_landmarks f) as [lm|]; [|eauto].
    unfold main.handle_gestures.
    destruct Hq as [Hshort | [Hlen Hraw]].
    - rewrite (update_no_hand _ _ _ _ _ _ Hshort). simpl. eauto.
    - assert (Hidle : ∀ raw, raw = L ∨ raw = GESTURE_IDLE →
                 confirmed (main.gesture_controller app0) raw (main.frame_clock f) = false).
      { intros raw Hor. apply not_true_is_false. rewrite confirmed_spec.
        intros (Hne & _ & Hnew & _). destruct Hor as [-> | ->]; [|contradiction].
        apply Hnew. symmetry. exact Hact. }
      destruct Hraw as [Hraw | Hraw];
        rewrite (update_hand _ _ _ _ _ _ _ Hlen Hraw), Hidle by auto; simpl; eauto. }
  destruct H1 as (app1 & -> & Hact1 & Hobj1). simpl.
  unfold ObjectManager.update, ObjectManager.draw. rewrite Hobj1. simpl. rewrite Hobj1.
  eexists. split; [reflexivity|]. simpl. auto.
Qed.

(** X15. After [clear], the gesture that was active cannot bring its entity
    back: while the controller still holds [L] as active label and the slot
    is empty, frames without a hand, or with a hand classified as [L] or as
    IDLE, leave the slot empty, however many of them come. *)
Theorem cleared_scene_stays_empty (L : Gesture) (fs : list main.Frame) :
  ∀ app : main.CinematicUniverse3D,
    _active_gesture (main.gesture_controller app) = Some L →
    ObjectManager.current_object (main.object_manager app) = None →
    Forall (quiet_for L) fs →
    ∃ app', main.run app fs = Some app' ∧
      _active_gesture (main.gesture_controller app') = Some L ∧
      ObjectManager.current_object (main.object_manager app') = None.
Proof.
  induction fs as [|f fs IH]; intros app Hact Hobj Hfs; simpl; [eauto|].
  apply Forall_cons in Hfs as [Hf Hfs].
  destruct (step_quiet L app f Hact Hobj Hf) as (app1 & -> & Hact1 & Hobj1). simpl.
  apply IH; assumption.
Qed.

Lemma cleared_scene_stays_empty_witness :
  ∃ app', main.run cleared_app (repeat (fist_frame 1700000002) 8) = Some app' ∧
    _active_gesture (main.gesture_controller app') = Some GESTURE_FIST ∧
    ObjectManager.current_object (main.object_manager app') = None.
Proof.
  apply (cleared_scene_stays_empty GESTURE_FIST (repeat (fist_frame 1700000002) 8) cleared_app).
  - reflexivity.
  - reflexivity.
  - repeat constructor; right; (split; [simpl; lia | left; reflexivity]).
Defined.

(** X16. A pass of the loop without a camera frame leaves the gesture
    controller exactly as it was, frame counter included, and keeps slot and
    owner; the entity on screen is still advanced by the time since the last
    pass, and drawn. *)
Theorem pass_without_camera_frame (app : main.CinematicUniverse3D) (f : main.Frame) :
  main.frame_landmarks f = None →
  ∃ app', main.step app f = Some app' ∧
    main.gesture_controller app' = main.gesture_controller app ∧
    main.object_manager app' = main.object_manager app ∧
    main.last_time app' = main.frame_now f ∧
    ∀ (l : loc) (e : Entity.t),
      ObjectManager.current_object (main.object_manager app) = Some l →
      objects (main.store app) !! l = Some e →
      objects (main.store app') !! l =
        Some (fst (Entity.update e (main.frame_now f - main.last_time app))) ∧
      drawn (main.store app') =
        drawn (main.store app)
          ++ [fst (Entity.update e (main.frame_now f - main.last_time app))].
Proof.
  intros Hnone. unfold main.step. rewrite Hnone. simpl.
  unfold ObjectManager.update, ObjectManager.draw.
  destruct (ObjectManager.current_object (main.object_manager app)) as [l0|] eqn:Hcur;
    simpl; rewrite ?Hcur; (eexists; split; [reflexivity|]); simpl;
    (split; [reflexivity|]); (split; [destruct (main.object_manager app); simpl in *; congruence|]);
    (split; [reflexivity|]); intros l e [= <-] He.
  rewrite lookup_alter_eq, He. simpl. split; reflexivity.
Qed.

Lemma pass_without_camera_frame_witness :
  ∃ app', main.step cleared_app (no_camera_frame 1700000002) = Some app' ∧
    main.gesture_controller app' = main.gesture_controller cleared_app ∧
    main.object_manager app' = main.object_manager cleared_app ∧
    main.last_time app' = 1700000002%Q.
Proof.
  destruct (pass_without_camera_frame cleared_app (no_camera_frame 1700000002) eq_refl)
    as (app' & Hstep & Hgc & Hom & Hlt & _).
  exists app'. repeat split; assumption.
Defined.

(** One pass of the loop, seen from the gesture controller. *)
Lemma step_controller (app : main.CinematicUniverse3D) (f : main.Frame) :
  ∃ app' gs,
    main.step app f = Some app' ∧
    main.last_time app' = main.frame_now f ∧
    run_calls (main.gesture_controller app) (calls_of (main.last_time app) [f]) =
      Some (main.gesture_controller app', gs).
Proof.
  unfold main.step. simpl.
  destruct (main.frame_landmarks f) as [lm|] eqn:Hlm; simpl.
  - match goal with
    | |- context [main.handle_gestures ?a ?w ?h ?dt ?l ?c] =>
        destruct (handle_gestures_cases a w h dt l c)
          as (gc & g & Hup & [(_ & ->) | (_ & cls & _ & ->)])
    end; simpl in Hup; unfold update_call; simpl; rewrite Hup; simpl;
      unfold ObjectManager.update, ObjectManager.draw;
      match goal with
      | |- context [match ObjectManager.current_object ?om with _ => _ end] =>
          destruct (ObjectManager.current_object om) eqn:Hcur
      end; simpl; rewrite ?Hcur; eexists _, _; repeat split.
  - unfold ObjectManager.update, ObjectManager.draw.
    destruct (ObjectManager.current_object (main.object_manager app)) eqn:Hcur;
      simpl; rewrite ?Hcur; eexists _, _; repeat split.
Qed.

Lemma calls_of_cons (last : Q) (f : main.Frame) (fs : list main.Frame) :
  calls_of last (f :: fs) = calls_of last [f] ++ calls_of (main.frame_now f) fs.
Proof. simpl. rewrite app_nil_r. reflexivity. Qed.

(** The loop keeps its invariants and feeds the controller the calls of
    [calls_of]. *)
Lemma run_invariants (fs : list main.Frame) :
  ∀ app0 : main.CinematicUniverse3D,
    agree app0 → shows app0 →
    ∃ app gs,
      main.run app0 fs = Some app ∧ agree app ∧ shows app ∧
      run_calls (main.gesture_controller app0) (calls_of (main.last_time app0) fs) =
        Some (main.gesture_controller app, gs).
Proof.
  induction fs as [|f fs IH]; intros app0 Hag Hsh.
  - exists app0, []. simpl. auto.
  - destruct (step_controller app0 f) as (app1 & gs1 & Hstep & Hlast & Hgc).
    destruct (step_agree app0 f Hag) as (a & Ha & Hag1).
    destruct (step_shows app0 f Hsh) as (b & Hb & Hsh1).
    rewrite Hstep in Ha, Hb. injection Ha as <-. injection Hb as <-.
    destruct (IH app1 Hag1 Hsh1) as (app & gs & Hrun & Hag' & Hsh' & Hcalls).
    exists app, (gs1 ++ gs).
    rewrite calls_of_cons, run_calls_app, Hgc. simpl. rewrite <- Hlast, Hcalls, Hstep.
    simpl. auto.
Qed.

(** A call classified as the active label keeps it active. *)
Lemma run_calls_active_kept (L : Gesture) (cs : list Call) :
  ∀ self : t,
    _active_gesture self = Some L →
    Forall (classifies L) cs →
    ∃ self' gs, run_calls self cs = Some (self', gs) ∧ _active_gesture self' = Some L.
Proof.
  induction cs as [|c cs IH]; intros self Hact Hcs.
  - exists self, []. auto.
  - apply Forall_cons in Hcs as [Hc Hcs].
    assert (Hno : confirmed self L (call_clock c) = false).
    { apply not_true_is_false. rewrite confirmed_spec, Hact. intros (_ & _ & Hne & _).
      apply Hne. reflexivity. }
    pose proof (update_call_classified self c L Hc) as Hstep. rewrite Hno in Hstep.
    match type of Hstep with _ = Some (?s, _) => set (self1 := s) in * end.
    destruct (IH self1 Hact Hcs) as (self' & gs & Hrun & Hact').
    exists self', (GESTURE_IDLE :: gs). simpl. rewrite Hstep. simpl. rewrite Hrun. auto.
Qed.

(** Six or more calls of one non-IDLE label, each at a clock reading of at
    least one cooldown, make that label active. *)
Lemma six_calls_activate (L : Gesture) (cs : list Call) :
  L ≠ GESTURE_IDLE →
  (GESTURE_STABILITY_FRAMES <= length cs)%nat →
  Forall (λ c, classifies L c ∧ (SWITCH_COOLDOWN <= call_clock c)%Q) cs →
  ∃ self gs, run_calls __init__ cs = Some (self, gs) ∧ _active_gesture self = Some L.
Proof.
  intros HL Hlen Hcs. unfold GESTURE_STABILITY_FRAMES in Hlen.
  rewrite <- (take_drop 5 cs) in Hcs |- *.
  apply Forall_app in Hcs as [Hfirst Hrest].
  assert (Hlen5 : length (take 5 cs) = 5%nat) by (rewrite length_take; lia).
  destruct (drop 5 cs) as [|c6 rest] eqn:Hdrop.
  { exfalso. pose proof (length_drop cs 5) as Hd. rewrite Hdrop in Hd. simpl in Hd. lia. }
  apply Forall_cons in Hrest as [[Hc6 Hclock] Hrest].
  assert (Hs0 : streak __init__ L = 0%nat).
  { unfold streak. destruct (bool_decide (L = _gesture_hold __init__)); reflexivity. }
  destruct (run_calls_below_threshold L (take 5 cs) __init__)
    as (self5 & Hrun5 & Hstreak & Hact & Hlast).
  { eapply Forall_impl; [exact Hfirst | intros c [Hc _]; exact Hc]. }
  { rewrite Hs0, Hlen5. unfold GESTURE_STABILITY_FRAMES. lia. }
  rewrite Hs0, Hlen5 in Hstreak. simpl in Hact, Hlast.
  assert (Hyes : confirmed self5 L (call_clock c6) = true).
  { apply confirmed_spec. rewrite Hstreak, Hact, Hlast.
    unfold GESTURE_STABILITY_FRAMES. repeat split; [exact HL | lia | discriminate | lra]. }
  pose proof (update_call_classified self5 c6 L Hc6) as Hstep. rewrite Hyes in Hstep.
  match type of Hstep with _ = Some (?s, _) => set (self6 := s) in * end.
  destruct (run_calls_active_kept L rest self6) as (self' & gs & Hrun & Hact').
  { reflexivity. }
  { eapply Forall_impl; [exact Hrest | intros c [Hc _]; exact Hc]. }
  exists self'. eexists.
  rewrite run_calls_app, Hrun5. simpl. rewrite Hstep. simpl. rewrite Hrun. simpl.
  split; [reflexivity | exact Hact'].
Qed.

Lemma calls_of_shows_gesture (L : Gesture) (fs : list main.Frame) :
  ∀ last : Q,
    Forall (shows_gesture L) fs →
    length (calls_of last fs) = length fs ∧
    Forall (λ c, classifies L c ∧ (SWITCH_COOLDOWN <= call_clock c)%Q) (calls_of last fs).
Proof.
  induction fs as [|f fs IH]; intros last Hfs; simpl.
  - split; [reflexivity | constructor].
  - apply Forall_cons in Hfs as [(lm & -> & Hlen & Hdet & Hclock) Hfs].
    destruct (IH (main.frame_now f) Hfs) as [Hl Hall]. simpl.
    split; [rewrite Hl; reflexivity|].
    constructor; [|exact Hall]. simpl. repeat split; assumption.
Qed.

(** X17. A gesture held long enough gets on screen: from the initial state,
    after six or more passes of the loop whose frames all show a hand
    classified as the same non-IDLE label [L], at clock readings of at least
    one cooldown, [L] is the controller's active label and the owner of the
    scene, and the slot holds a live entity of the class [gesture_map]
    assigns to [L]. *)
Theorem held_gesture_gets_on_screen (start : Q) (L : Gesture) (fs : list main.Frame) :
  L ≠ GESTURE_IDLE →
  (GESTURE_STABILITY_FRAMES <= length fs)%nat →
  Forall (shows_gesture L) fs →
  ∃ app l e,
    main.run (main.__init__ start) fs = Some app ∧
    _active_gesture (main.gesture_controller app) = Some L ∧
    ObjectManager.current_gesture (main.object_manager app) = Some L ∧
    ObjectManager.current_object (main.object_manager app) = Some l ∧
    objects (main.store app) !! l = Some e ∧
    main.gesture_map L = Some (Entity.class e).
Proof.
  intros HL Hlen Hfs.
  destruct (run_invariants fs (main.__init__ start)) as (app & gs & Hrun & Hag & Hsh & Hcalls);
    [reflexivity | exact I |].
  destruct (calls_of_shows_gesture L fs start Hfs) as [Hl Hall].
  destruct (six_calls_activate L (calls_of start fs) HL) as (self & gs' & Hrun' & Hact);
    [rewrite Hl; exact Hlen | exact Hall |].
  simpl in Hcalls. rewrite Hrun' in Hcalls. injection Hcalls as -> _.
  unfold agree in Hag. rewrite Hact in Hag. unfold shows in Hsh. rewrite <- Hag in Hsh.
  destruct (ObjectManager.current_object (main.object_manager app)) as [l|] eqn:Hcur;
    [|contradiction].
  destruct Hsh as (e & He & Hmap).
  exists app, l, e. repeat split; auto.
Qed.

Lemma held_gesture_gets_on_screen_witness :
  ∃ app l e,
    main.run (main.__init__ 1700000000) (repeat (fist_frame 1700000001) 7) = Some app ∧
    _active_gesture (main.gesture_controller app) = Some GESTURE_FIST ∧
    ObjectManager.current_gesture (main.object_manager app) = Some GESTURE_FIST ∧
    ObjectManager.current_object (main.object_manager app) = Some l ∧
    objects (main.store app) !! l = Some e ∧
    main.gesture_map GESTURE_FIST = Some (Entity.class e).
Proof.
  apply (held_gesture_gets_on_screen 1700000000 GESTURE_FIST (repeat (fist_frame 1700000001) 7)).
  - discriminate.
  - vm_compute. lia.
  - repeat constructor; exists fist_hand;
      (split; [reflexivity|]); (split; [simpl; lia|]);
      (split; [reflexivity|]); vm_compute; discriminate.
Defined.

(** * The controller in binary64 *)

Section Binary64.

Import GestureController64.

(** ** Reading landmarks *)







(** ** One call of [update] *)






(** ** Runs of calls *)




(** ** Cooldown *)




End Binary64.

(** ** Extended, closed, and the dead zone between them *)



